(** * A shallow embedding of the Tetris state reducer

    The development follows the TypeScript sources: [types.ts] (constants,
    piece table, generator), [utils.ts] (collision predicates and grid
    helpers), [state.ts] (the action handlers) and [main.ts] ([reduceState]).

    Conventions of the embedding.
    - A JavaScript [number] that the program stores (pixel coordinates, ids,
      score, level) is an integer [Z]; the model is exact as long as these
      stay below 2^53 in absolute value.  The piece generator multiplies
      beyond that range, so its arithmetic rounds as binary64 does
      ([fround]).
    - A quotient [a / b] is a rational [Q]: grid coordinates are pixel
      coordinates divided by the block size and are integers only for
      block-aligned pixels.
    - A read [arr[i]] yields [None] (JavaScript's [undefined]) unless [i] is
      an integer index inside the array.
    - A call that throws is [Err]: [TypeError] for a property read on
      [undefined], [RangeError] for an invalid array length.  [IllTyped]
      marks a call that returns an object outside its declared type. *)

From Stdlib Require Import ZArith QArith Qabs Lia Lqa.
From stdpp Require Import base list.

(** ** Results of calls that may throw *)

Inductive JsError := TypeError | RangeError | IllTyped.

Inductive result (A : Type) :=
| Ok (a : A)
| Err (e : JsError).
Arguments Ok {A} a.
Arguments Err {A} e.

Definition bind {A B} (r : result A) (k : A -> result B) : result B :=
  match r with
  | Ok a => k a
  | Err e => Err e
  end.

Notation "'let*' x ':=' r 'in' k" := (bind r (fun x => k))
  (at level 10, x name, r at level 100, k at level 200).

(** ** Arrays *)

(** The index denoted by a number, when it is a non-negative integer. *)
Definition Qindex (q : Q) : option nat :=
  if ((Qnum q mod Zpos (Qden q) =? 0) && (0 <=? Qnum q))%Z
  then Some (Z.to_nat (Qnum q / Zpos (Qden q)))
  else None.

(** [arr[i]] *)
Definition at_ {A} (arr : list A) (i : Q) : option A :=
  match Qindex i with
  | Some n => arr !! n
  | None => None
  end.

(** [Array(n)]: the length of the new array, or a RangeError. *)
Definition Array_ (n : Q) : result nat :=
  match Qindex n with
  | Some k => if (Z.of_nat k <? 2 ^ 32)%Z then Ok k else Err RangeError
  | None => Err RangeError
  end.

(** [arr.map((elem, index) => ...)] with a callback that may throw. *)
Fixpoint Array_map_from {A B} (f : A -> nat -> result B) (i : nat) (l : list A)
  : result (list B) :=
  match l with
  | [] => Ok []
  | a :: l' =>
      let* b := f a i in
      let* bs := Array_map_from f (S i) l' in
      Ok (b :: bs)
  end.
Definition Array_map {A B} (f : A -> nat -> result B) (l : list A) :=
  Array_map_from f 0 l.

(** [arr.some((elem, index) => ...)]: stops at the first [true]. *)
Fixpoint Array_some_from {A} (f : A -> nat -> result bool) (i : nat) (l : list A)
  : result bool :=
  match l with
  | [] => Ok false
  | a :: l' =>
      let* b := f a i in
      if b then Ok true else Array_some_from f (S i) l'
  end.
Definition Array_some {A} (f : A -> nat -> result bool) (l : list A) :=
  Array_some_from f 0 l.

(** [arr.reduce((acc, elem, index) => ..., init)] *)
Fixpoint Array_reduce_from {A B} (f : B -> A -> nat -> result B) (i : nat)
  (l : list A) (acc : B) : result B :=
  match l with
  | [] => Ok acc
  | a :: l' =>
      let* acc' := f acc a i in
      Array_reduce_from f (S i) l' acc'
  end.
Definition Array_reduce {A B} (f : B -> A -> nat -> result B) (l : list A) (init : B) :=
  Array_reduce_from f 0 l init.

(** ** Numbers *)

(** The binary64 number nearest to the integer [z], ties to even: what [+]
    and [*] return when the exact result is [z].  An integer below 2^53 in
    absolute value is its own nearest number; a larger one keeps its 53
    leading bits.  Results beyond the largest finite number are outside the
    model. *)
Definition fround (z : Z) : Z :=
  let m := Z.abs z in
  if (m <? 2 ^ 53)%Z then z
  else
    let e := (Z.log2 m - 52)%Z in
    let q := Z.shiftr m e in
    let r := (m - Z.shiftl q e)%Z in
    let half := (2 ^ (e - 1))%Z in
    let q' := if (half <? r)%Z || ((r =? half)%Z && Z.odd q)
              then (q + 1)%Z else q in
    (Z.sgn z * Z.shiftl q' e)%Z.

(** ** types.ts *)

Module RNG.
Definition m : Z := 2147483648.
Definition a : Z := 1103515245.
Definition c : Z := 12345.
(** The product and the sum are rounded; [%] is the truncated remainder and
    is exact. *)
Definition hash (seed : Z) : Z := Z.rem (fround (fround (a * seed) + c)) m.
Definition modulus (hash : Z) : Z := Z.rem hash 8.
End RNG.

Module Viewport.
Definition CANVAS_WIDTH : Z := 200.
Definition CANVAS_HEIGHT : Z := 400.
Definition PREVIEW_WIDTH : Z := 160.
Definition PREVIEW_HEIGHT : Z := 80.
End Viewport.

Module Constants.
Definition TICK_RATE_MS : Z := 500.
Definition GRID_WIDTH : Z := 10.
Definition GRID_HEIGHT : Z := 20.
End Constants.

(** Both quotients are exact. *)
Module Block.
Definition WIDTH : Z := (Viewport.CANVAS_WIDTH / Constants.GRID_WIDTH)%Z.
Definition HEIGHT : Z := (Viewport.CANVAS_HEIGHT / Constants.GRID_HEIGHT)%Z.
End Block.

Inductive Color := blue | cyan | purple | orange | red | yellow | green | black.

Inductive Tetromino :=
| cube | line | tee | lShape | reverseShape | zShape | reverseZShape
| reverseLShape | Bomb.

Definition Tetromino_eqb (t1 t2 : Tetromino) : bool :=
  match t1, t2 with
  | cube, cube | line, line | tee, tee | lShape, lShape
  | reverseShape, reverseShape | zShape, zShape
  | reverseZShape, reverseZShape | reverseLShape, reverseLShape
  | Bomb, Bomb => true
  | _, _ => false
  end.

(** [color] is absent from the cells of a fresh grid, [value] is optional. *)
Module GridObject.
Record t := mk { color : option Color; value : option Z }.
End GridObject.

Abbreviation Grid := (list (list GridObject.t)) (only parsing).

(** An entry of a shape is a number or [undefined]. *)
Abbreviation TetrominoShape := (list (list (option Z))) (only parsing).

Definition numbers (rows : list (list Z)) : TetrominoShape :=
  map (map Some) rows.

Module TetrominoObject.
Record t := mk {
  id : Z;
  shape : TetrominoShape;
  color : Color;
  x : Z;
  y : Z;
  type : Tetromino
}.
End TetrominoObject.

Module State.
Record t := mk {
  gameEnd : bool;
  currentTetromino : TetrominoObject.t;
  nextTetromino : TetrominoObject.t;
  grid : Grid;
  score : Z;
  level : Z;
  highScore : Z;
  tickRate : Z
}.
End State.

(** [tetrominoShapes]: the entry of each piece kind ([id: 0], [y: 0] come from
    [baseTetromino]); the key ["null"] is [tetrominoShapes_null]. *)
Definition tetrominoShapes (key : Tetromino) : option TetrominoObject.t :=
  match key with
  | cube =>
      Some (TetrominoObject.mk 0 (numbers [[1; 1]; [1; 1]]%Z) blue
              (Block.WIDTH * 4) 0 cube)
  | line =>
      Some (TetrominoObject.mk 0 (numbers [[1; 1; 1; 1]]%Z) cyan
              (Block.WIDTH * 3) 0 line)
  | tee =>
      Some (TetrominoObject.mk 0 (numbers [[0; 1; 0]; [1; 1; 1]]%Z) purple
              (Block.WIDTH * 4) 0 tee)
  | lShape =>
      Some (TetrominoObject.mk 0 (numbers [[1; 0]; [1; 0]; [1; 1]]%Z) orange
              (Block.WIDTH * 4) 0 lShape)
  | reverseLShape =>
      Some (TetrominoObject.mk 0 (numbers [[0; 1]; [0; 1]; [1; 1]]%Z) red
              (Block.WIDTH * 4) 0 reverseLShape)
  | zShape =>
      Some (TetrominoObject.mk 0 (numbers [[1; 1; 0]; [0; 1; 1]]%Z) yellow
              (Block.WIDTH * 4) 0 zShape)
  | reverseZShape =>
      Some (TetrominoObject.mk 0 (numbers [[0; 1; 1]; [1; 1; 0]]%Z) green
              (Block.WIDTH * 4) 0 reverseZShape)
  | Bomb =>
      Some (TetrominoObject.mk 0 (numbers [[1]]%Z) black
              (Block.WIDTH * 5) 0 Bomb)
  | reverseShape => None
  end.

Definition tetrominoShapes_null : TetrominoObject.t :=
  TetrominoObject.mk 0 [] black (Block.WIDTH * 5) 0 cube.

Definition tetrominoMapping (n : Z) : option Tetromino :=
  match n with
  | 0 => Some cube
  | 1 => Some line
  | 2 => Some tee
  | 3 => Some lShape
  | 4 => Some reverseLShape
  | 5 => Some zShape
  | 6 => Some reverseZShape
  | 7 => Some Bomb
  | _ => None
  end%Z.

(** [{ ...tetromino, id }] *)
Definition with_id (t : TetrominoObject.t) (id : Z) : TetrominoObject.t :=
  TetrominoObject.mk id (TetrominoObject.shape t) (TetrominoObject.color t)
    (TetrominoObject.x t) (TetrominoObject.y t) (TetrominoObject.type t).

(** When the mapping has no entry for the reduced hash (a negative hash), the
    spread of [undefined] leaves an object with the [id] field only. *)
Definition getRandomTetrimono (id : Z) : result TetrominoObject.t :=
  let seed := fround (12345 + id) in
  let hashValue := RNG.hash seed in
  let numberBetween0And7 := RNG.modulus hashValue in
  match tetrominoMapping numberBetween0And7 with
  | Some key =>
      match tetrominoShapes key with
      | Some tetromino => Ok (with_id tetromino id)
      | None => Err IllTyped
      end
  | None => Err IllTyped
  end.

Definition emptyCell : GridObject.t := GridObject.mk None (Some 0%Z).

(** [new Array(20).fill(0).map(() => new Array(10).fill({ value: 0 }))] *)
Definition emptyGrid : Grid := replicate 20 (replicate 10 emptyCell).

Definition initialState : result State.t :=
  let* current := getRandomTetrimono 1 in
  let* next := getRandomTetrimono 2 in
  Ok (State.mk false current next emptyGrid 0 1 0 Constants.TICK_RATE_MS).

(** ** utils.ts *)

(** [input != null] *)
Definition isNotNullOrUndefined {A} (input : option A) : bool :=
  match input with
  | Some _ => true
  | None => false
  end.

Definition not {A} (f : A -> bool) (x : A) : bool := negb (f x).

(** [v === 1] *)
Definition is1 (v : option Z) : bool :=
  match v with
  | Some 1%Z => true
  | _ => false
  end.

Definition rotateShapeClockwise {T} (shape : list (list (option T)))
  : result (list (list (option T))) :=
  match shape !! 0%nat with
  | None => Err TypeError
  | Some row0 =>
      Ok (imap (fun col _ =>
                  (fun row : list (option T) =>
                     match row !! col with Some v => v | None => None end)
                    <$> reverse shape)
               (replicate (length row0) (@None T)))
  end.

Definition isOffScreen (x y width height : Z) : bool :=
  ((x <? 0) || (x + width >? Viewport.CANVAS_WIDTH)
   || (y + height >? Viewport.CANVAS_HEIGHT))%Z.

Definition toGridCoordinates (coord blockSize : Z) : Q :=
  (inject_Z coord / inject_Z blockSize)%Q.

Definition shapeAndGridCoincide (shape : TetrominoShape) (grid : Grid) (x y : Q)
  : result bool :=
  Array_reduce
    (fun (acc : bool) (row : list (option Z)) rowIndex =>
       if acc then Ok true
       else Array_some
              (fun cell cellIndex =>
                 if is1 cell then
                   match at_ grid (y + inject_Z (Z.of_nat rowIndex))%Q with
                   | None => Err TypeError
                   | Some gridRow =>
                       match at_ gridRow (x + inject_Z (Z.of_nat cellIndex))%Q with
                       | None => Err TypeError
                       | Some gridCell => Ok (is1 (GridObject.value gridCell))
                       end
                   end
                 else Ok false)
              row)
    shape false.

Definition isValidPosition (x y : Z) (shape : TetrominoShape) (grid : Grid)
  : result bool :=
  if not isNotNullOrUndefined (Some shape)
     || not isNotNullOrUndefined (shape !! 0%nat)
  then Ok false
  else
    match shape !! 0%nat with
    | None => Err TypeError
    | Some row0 =>
        if negb (isOffScreen x y
                   (Z.of_nat (length row0) * Block.WIDTH)
                   (Z.of_nat (length shape) * Block.HEIGHT))
        then
          let* coincide := shapeAndGridCoincide shape grid
                        (toGridCoordinates x Block.WIDTH)
                        (toGridCoordinates y Block.HEIGHT) in
          Ok (negb coincide)
        else Ok false
    end.

(** [cell.value !== 0] for every cell. *)
Definition isRowFilled (row : list GridObject.t) : bool :=
  forallb (fun cell =>
             match GridObject.value cell with
             | Some 0%Z => false
             | _ => true
             end) row.

Definition Qltb (p q : Q) : bool := negb (Qle_bool q p).

Definition addTetrominoToGrid (grid : Grid) (x y : Q) (shape : TetrominoShape)
  (color : Color) : result Grid :=
  Array_map
    (fun (row : list GridObject.t) rowIndex =>
       let r := inject_Z (Z.of_nat rowIndex) in
       if Qle_bool y r && Qltb r (y + inject_Z (Z.of_nat (length shape)))%Q then
         Array_map
           (fun (cell : GridObject.t) colIndex =>
              let c := inject_Z (Z.of_nat colIndex) in
              if Qle_bool x c then
                match at_ shape (r - y)%Q with
                | None => Err TypeError
                | Some shapeRow =>
                    if Qltb c (x + inject_Z (Z.of_nat (length shapeRow)))%Q
                       && is1 (match at_ shapeRow (c - x)%Q with
                               | Some v => v
                               | None => None
                               end)
                    then Ok (GridObject.mk (Some color) (Some 1%Z))
                    else Ok cell
                end
              else Ok cell)
           row
       else Ok row)
    grid.

Definition findDropPosition (grid : Grid) (x y : Z) (shape : TetrominoShape)
  : result Q :=
  let* n := Array_ (inject_Z (400 - y) / inject_Z Block.HEIGHT)%Q in
  let increments := replicate n Block.HEIGHT in
  let* returnY := Array_reduce
               (fun accY height _ =>
                  let nextY := (accY + height)%Z in
                  let* valid := isValidPosition x nextY shape grid in
                  Ok (if valid then nextY else accY))
               increments y in
  Ok (inject_Z returnY / inject_Z Block.HEIGHT)%Q.

(** ** observable.ts: the input events *)

(** [Tick] stands for the numbers emitted by the interval timer. *)
Inductive StateChange :=
| Space
| Rotate
| Drop
| Move (x y : Z)
| Tick.

(** [stateChange?.x] and [stateChange?.y] *)
Definition StateChange_x (stateChange : option StateChange) : option Z :=
  match stateChange with
  | Some (Move x _) => Some x
  | _ => None
  end.
Definition StateChange_y (stateChange : option StateChange) : option Z :=
  match stateChange with
  | Some (Move _ y) => Some y
  | _ => None
  end.

(** [v || 0] *)
Definition or0 (v : option Z) : Z :=
  match v with
  | Some z => z
  | None => 0%Z
  end.

(** ** state.ts *)

Record Properties := mkProperties {
  prop_x : Z;
  prop_y : Z;
  prop_shape : TetrominoShape
}.

Definition set_currentTetromino (s : State.t) (t : TetrominoObject.t) : State.t :=
  State.mk (State.gameEnd s) t (State.nextTetromino s) (State.grid s)
    (State.score s) (State.level s) (State.highScore s) (State.tickRate s).

Definition with_properties (t : TetrominoObject.t) (p : Properties)
  : TetrominoObject.t :=
  TetrominoObject.mk (TetrominoObject.id t) (prop_shape p)
    (TetrominoObject.color t) (prop_x p) (prop_y p) (TetrominoObject.type t).

Definition with_y (t : TetrominoObject.t) (y : Z) : TetrominoObject.t :=
  TetrominoObject.mk (TetrominoObject.id t) (TetrominoObject.shape t)
    (TetrominoObject.color t) (TetrominoObject.x t) y (TetrominoObject.type t).

Definition handleGameEnd (s : State.t) : result State.t :=
  let cur := State.currentTetromino s in
  let* grid := addTetrominoToGrid (State.grid s)
                 (inject_Z (TetrominoObject.x cur) / inject_Z Block.WIDTH)%Q
                 (inject_Z (TetrominoObject.y cur) / inject_Z Block.HEIGHT)%Q
                 (TetrominoObject.shape cur) (TetrominoObject.color cur) in
  Ok (State.mk true
        (with_id tetrominoShapes_null (TetrominoObject.id cur))
        (with_id tetrominoShapes_null (TetrominoObject.id cur))
        grid
        (State.score s)
        (State.level s)
        (if (State.score s >? State.highScore s)%Z
         then State.score s else State.highScore s)
        (State.tickRate s)).

Definition addBombToGrid (grid : Grid) (x y : Q) (color : Color) : Grid :=
  imap (fun rowIndex (row : list GridObject.t) =>
          imap (fun colIndex (cell : GridObject.t) =>
                  if Qle_bool (Qabs (inject_Z (Z.of_nat rowIndex) - y)) 1
                     && Qle_bool (Qabs (inject_Z (Z.of_nat colIndex) - x)) 1
                  then GridObject.mk (Some color) (Some 0%Z)
                  else cell)
               row)
       grid.

Record GridAndPoints := mkGridAndPoints {
  gp_grid : Grid;
  gp_points : Z
}.

Definition clearedGridAndPoints (grid : Grid) : GridAndPoints :=
  let clearedGrid := List.filter (fun row => negb (isRowFilled row)) grid in
  let points := (Z.of_nat (length grid) - Z.of_nat (length clearedGrid))%Z in
  let newRows := replicate (Z.to_nat points) (replicate 10 emptyCell) in
  mkGridAndPoints (newRows ++ clearedGrid) points.

Record LevelAndTickRate := mkLevelAndTickRate {
  lt_level : Z;
  lt_tickRate : Z
}.

Definition updateLevelAndTickRate (score newPoints : Z) : LevelAndTickRate :=
  let level := Z.min ((score + newPoints) / 5 + 1) 15 in
  let tickRate := (Constants.TICK_RATE_MS - 30 * level)%Z in
  mkLevelAndTickRate level tickRate.

Definition computeGridAndUpdateState (getY : State.t -> result Q) (s : State.t)
  : result State.t :=
  let cur := State.currentTetromino s in
  let x := (inject_Z (TetrominoObject.x cur) / inject_Z Block.WIDTH)%Q in
  let* y := getY s in
  let* grid :=
    if negb (Tetromino_eqb (TetrominoObject.type cur) Bomb)
    then addTetrominoToGrid (State.grid s) x y (TetrominoObject.shape cur)
           (TetrominoObject.color cur)
    else Ok (addBombToGrid (State.grid s) x y (TetrominoObject.color cur)) in
  let cleared := clearedGridAndPoints grid in
  let newGrid := gp_grid cleared in
  let newPoints := gp_points cleared in
  let* next := getRandomTetrimono (TetrominoObject.id (State.nextTetromino s) + 1) in
  let lt := updateLevelAndTickRate (State.score s) newPoints in
  Ok (State.mk (State.gameEnd s)
        (State.nextTetromino s)
        next
        newGrid
        (State.score s + newPoints)
        (lt_level lt)
        (State.highScore s)
        (lt_tickRate lt)).

Definition dropTetromino : State.t -> result State.t :=
  computeGridAndUpdateState
    (fun s =>
       let cur := State.currentTetromino s in
       findDropPosition (State.grid s) (TetrominoObject.x cur)
         (TetrominoObject.y cur) (TetrominoObject.shape cur)).

Definition handleAddTetromino : State.t -> result State.t :=
  computeGridAndUpdateState
    (fun s =>
       Ok (inject_Z (TetrominoObject.y (State.currentTetromino s))
           / inject_Z Block.HEIGHT)%Q).

Definition tick (s : State.t) : result State.t :=
  let cur := State.currentTetromino s in
  let* valid := isValidPosition (TetrominoObject.x cur) (TetrominoObject.y cur)
                  (TetrominoObject.shape cur) (State.grid s) in
  if negb valid then handleGameEnd s
  else
    let* validBelow := isValidPosition (TetrominoObject.x cur)
                         (TetrominoObject.y cur + Block.HEIGHT)
                         (TetrominoObject.shape cur) (State.grid s) in
    if negb validBelow then handleAddTetromino s
    else Ok (set_currentTetromino s
               (with_y cur (TetrominoObject.y cur + Block.HEIGHT))).

Definition createTetriminoAction
  (actionFn : State.t -> option StateChange -> result Properties)
  (s : State.t) (stateChange : option StateChange) : result State.t :=
  let* updatedProperties := actionFn s stateChange in
  let* valid := isValidPosition (prop_x updatedProperties)
                  (prop_y updatedProperties) (prop_shape updatedProperties)
                  (State.grid s) in
  if valid then
    Ok (set_currentTetromino s
          (with_properties (State.currentTetromino s) updatedProperties))
  else if not isNotNullOrUndefined (StateChange_x stateChange)
          || match StateChange_x stateChange with
             | Some x => (x =? 0)%Z
             | None => false
             end
  then tick s
  else Ok s.

Definition moveAction (s : State.t) (stateChange : option StateChange)
  : result Properties :=
  let cur := State.currentTetromino s in
  Ok (mkProperties
        (TetrominoObject.x cur + or0 (StateChange_x stateChange))
        (TetrominoObject.y cur + or0 (StateChange_y stateChange))
        (TetrominoObject.shape cur)).

Definition rotateAction (s : State.t) (_ : option StateChange)
  : result Properties :=
  let cur := State.currentTetromino s in
  let* rotated := rotateShapeClockwise (TetrominoObject.shape cur) in
  Ok (mkProperties (TetrominoObject.x cur) (TetrominoObject.y cur) rotated).

Definition moveTetrimino := createTetriminoAction moveAction.
Definition rotateTetrimino := createTetriminoAction rotateAction.

(** ** main.ts *)

Definition reduceState (s : State.t) (stateChange : StateChange)
  : result State.t :=
  match stateChange, State.gameEnd s with
  | Drop, false => dropTetromino s
  | Rotate, false => rotateTetrimino s None
  | Move _ _, false => moveTetrimino s (Some stateChange)
  | Space, true =>
      let* current := getRandomTetrimono 1 in
      let* next := getRandomTetrimono 2 in
      Ok (State.mk false current next emptyGrid 0 0
            (State.highScore s) (State.tickRate s))
  | _, true => Ok s
  | _, false => tick s
  end.

(** [scan(reduceState, initialState)] over a finite prefix of the event
    stream. *)
Fixpoint scan (s : State.t) (events : list StateChange) : result State.t :=
  match events with
  | [] => Ok s
  | e :: events' =>
      let* s' := reduceState s e in
      scan s' events'
  end.

Definition run (events : list StateChange) : result State.t :=
  let* s0 := initialState in
  scan s0 events.

(** ** Auxiliary notions of the statements *)

(** [grid[r][c]] for in-range indices. *)
Definition cellAt (grid : Grid) (r c : nat) : option GridObject.t :=
  match grid !! r with
  | Some row => row !! c
  | None => None
  end.

(** [shape[i][j]] for in-range indices. *)
Definition entry {T} (shape : list (list (option T))) (i j : nat)
  : option (option T) :=
  match shape !! i with
  | Some row => row !! j
  | None => None
  end.

(** [R] rows of [C] entries each. *)
Definition rectangular {T} (R C : nat) (shape : list (list (option T))) : Prop :=
  length shape = R /\ Forall (fun row => length row = C) shape.

(** The level range together with the sign of the score it depends on. *)
Definition level_in_range (s : State.t) : Prop :=
  (1 <= State.level s <= 15)%Z /\ (0 <= State.score s)%Z.

(** A grid of [R] rows of [C] cells. *)
Definition gridSize (R C : nat) (grid : Grid) : Prop :=
  length grid = R /\ Forall (fun row => length row = C) grid.

(** [shape[i][j]] and [grid[r][c]] at integer positions; [None] outside. *)
Definition shapeCell (shape : TetrominoShape) (i j : Z) : option Z :=
  if ((0 <=? i) && (0 <=? j))%Z then
    match entry shape (Z.to_nat i) (Z.to_nat j) with
    | Some v => v
    | None => None
    end
  else None.

Definition gridCell (grid : Grid) (r c : Z) : option GridObject.t :=
  if ((0 <=? r) && (0 <=? c))%Z then cellAt grid (Z.to_nat r) (Z.to_nat c)
  else None.


(** A piece as the game places it: a rectangular shape with at least one
    cell, at block-aligned pixels, not above the top row nor below the
    floor. *)
Definition pieceOk (piece : TetrominoObject.t) : Prop :=
  (exists R C, rectangular (S R) (S C) (TetrominoObject.shape piece))
  /\ (TetrominoObject.x piece mod Block.WIDTH = 0)%Z
  /\ (TetrominoObject.y piece mod Block.HEIGHT = 0)%Z
  /\ (0 <= TetrominoObject.y piece <= 400)%Z.

(** The states of a game: a 20 by 10 grid and, while the game runs, two
    well-placed pieces with a non-negative next id. *)
Definition wellFormed (s : State.t) : Prop :=
  gridSize 20 10 (State.grid s)
  /\ (State.gameEnd s = false ->
      pieceOk (State.currentTetromino s)
      /\ pieceOk (State.nextTetromino s)
      /\ (0 <= TetrominoObject.id (State.nextTetromino s))%Z).

(** The events that main.ts feeds to the reducer: the timer and the six
    keys. *)
Definition keyEvent (e : StateChange) : Prop :=
  e = Tick \/ e = Space \/ e = Rotate \/ e = Drop
  \/ e = Move (- Block.WIDTH) 0 \/ e = Move Block.WIDTH 0
  \/ e = Move 0 Block.HEIGHT.

(** Concrete states used below. *)

(** The first piece (the L shape) pushed against the right wall. *)
Definition edgeState : State.t :=
  State.mk false
    (TetrominoObject.mk 1 (numbers [[1; 0]; [1; 0]; [1; 1]]%Z) orange 160 0 lShape)
    (TetrominoObject.mk 2 (numbers [[1; 1]; [1; 1]]%Z) blue 80 0 cube)
    emptyGrid 0 1 0 500.

Definition fullGrid : Grid :=
  replicate 20 (replicate 10 (GridObject.mk None (Some 1%Z))).

(** The first piece spawned onto a full grid (the state of the
    [handleGameEnd] test), with a score above the high score. *)
Definition blockedState : State.t :=
  State.mk false
    (TetrominoObject.mk 1 (numbers [[1; 0]; [1; 0]; [1; 1]]%Z) orange 80 0 lShape)
    (TetrominoObject.mk 2 (numbers [[1; 1]; [1; 1]]%Z) blue 80 0 cube)
    fullGrid 7 2 3 440.


Definition endedState : State.t :=
  State.mk true
    (with_id tetrominoShapes_null 1)
    (with_id tetrominoShapes_null 1)
    fullGrid 7 2 9 440.

(** * The repository's unit tests, replayed on the embedding *)

Example test_rotate_square :
  rotateShapeClockwise (numbers [[1; 2]; [3; 4]]%Z)
  = Ok (numbers [[3; 1]; [4; 2]]%Z).
Proof. reflexivity. Qed.

Example test_rotate_non_square :
  rotateShapeClockwise (numbers [[1; 2; 3]; [4; 5; 6]]%Z)
  = Ok (numbers [[4; 1]; [5; 2]; [6; 3]]%Z).
Proof. reflexivity. Qed.

Example test_isOffScreen :
  isOffScreen (-1) 0 100 100 = true
  /\ isOffScreen 0 0 (Viewport.CANVAS_WIDTH + 1) 100 = true
  /\ isOffScreen 0 0 100 (Viewport.CANVAS_HEIGHT + 1) = true
  /\ isOffScreen 0 0 Viewport.CANVAS_WIDTH Viewport.CANVAS_HEIGHT = false.
Proof. repeat split. Qed.

Example test_toGridCoordinates : (toGridCoordinates 20 10 == 2)%Q.
Proof. reflexivity. Qed.

Example test_shapeAndGridCoincide :
  shapeAndGridCoincide (numbers [[1; 1]; [1; 1]]%Z)
    (replicate 20 (replicate 10 (GridObject.mk None (Some 1%Z)))) 0 0
  = Ok true.
Proof. reflexivity. Qed.

Example test_isValidPosition :
  isValidPosition 0 0 (numbers [[0; 1]; [1; 0]]%Z)
    (replicate 2 (replicate 2 (GridObject.mk (Some red) (Some 0%Z))))
  = Ok true.
Proof. reflexivity. Qed.

Example test_addTetrominoToGrid :
  addTetrominoToGrid
    (replicate 2 (replicate 2 (GridObject.mk (Some red) (Some 0%Z))))
    0 0 (numbers [[0; 1]; [1; 0]]%Z) red
  = Ok [[GridObject.mk (Some red) (Some 0%Z); GridObject.mk (Some red) (Some 1%Z)];
        [GridObject.mk (Some red) (Some 1%Z); GridObject.mk (Some red) (Some 0%Z)]].
Proof. reflexivity. Qed.

Example test_isRowFilled :
  isRowFilled (replicate 3 (GridObject.mk (Some red) (Some 1%Z))) = true
  /\ isRowFilled [GridObject.mk (Some red) (Some 0%Z);
                  GridObject.mk (Some red) (Some 2%Z);
                  GridObject.mk (Some red) (Some 3%Z)] = false
  /\ isRowFilled (replicate 3 (GridObject.mk (Some red) (Some 0%Z))) = false.
Proof. repeat split. Qed.

Example test_initialState :
  initialState
  = Ok (State.mk false
          (TetrominoObject.mk 1 (numbers [[1; 0]; [1; 0]; [1; 1]]%Z) orange 80 0
             lShape)
          (TetrominoObject.mk 2 (numbers [[1; 1]; [1; 1]]%Z) blue 80 0 cube)
          emptyGrid 0 1 0 500).
Proof. reflexivity. Qed.

Example test_moveAction :
  (let* s0 := initialState in
   moveAction
     (set_currentTetromino s0
        (TetrominoObject.mk 1 (numbers [[1; 1]; [1; 1]]%Z) red 10 10 cube))
     (Some (Move 5 5)))
  = Ok (mkProperties 15 15 (numbers [[1; 1]; [1; 1]]%Z)).
Proof. reflexivity. Qed.

Example test_tick_moves_down :
  exists s, (let* s0 := initialState in tick s0) = Ok s
            /\ TetrominoObject.y (State.currentTetromino s) = Block.HEIGHT.
Proof. eexists. split; [vm_compute; reflexivity | reflexivity]. Qed.

Example test_clearedGridAndPoints :
  length (gp_grid (clearedGridAndPoints emptyGrid)) = 20
  /\ gp_points (clearedGridAndPoints emptyGrid) = 0%Z.
Proof. split; reflexivity. Qed.

Example test_updateLevelAndTickRate :
  updateLevelAndTickRate 0 4 = mkLevelAndTickRate 1 (Constants.TICK_RATE_MS - 30)
  /\ updateLevelAndTickRate 10 5
     = mkLevelAndTickRate 4 (Constants.TICK_RATE_MS - 30 * 4)
  /\ updateLevelAndTickRate 100 5
     = mkLevelAndTickRate 15 (Constants.TICK_RATE_MS - 30 * 15).
Proof. repeat split. Qed.

(** * Properties *)

(** ** isValidPosition *)

(** C3 (counterexample).  A shape whose first row is empty, [[[]]], is a
    valid position on the empty grid: the guard of [isValidPosition] tests
    that a first row exists, not that it has cells. *)
Lemma isValidPosition_empty_first_row_valid :
  isValidPosition 0 0 [[]] emptyGrid = Ok true.
Proof. reflexivity. Qed.

(** C3 (amended).  [isValidPosition] returns false for the empty shape.  For
    a shape with a first row (empty or not) it returns true exactly when the
    pixel bounding box is on screen and [shapeAndGridCoincide] returns false,
    and returns false exactly when the box is off screen or
    [shapeAndGridCoincide] returns true. *)
Theorem isValidPosition_spec (x y : Z) (row0 : list (option Z))
  (rest : TetrominoShape) (grid : Grid) :
  let shape := row0 :: rest in
  let offScreen :=
    isOffScreen x y (Z.of_nat (length row0) * Block.WIDTH)
      (Z.of_nat (length shape) * Block.HEIGHT) in
  let coincide :=
    shapeAndGridCoincide shape grid (toGridCoordinates x Block.WIDTH)
      (toGridCoordinates y Block.HEIGHT) in
  isValidPosition x y [] grid = Ok false
  /\ (isValidPosition x y shape grid = Ok true
      <-> offScreen = false /\ coincide = Ok false)
  /\ (isValidPosition x y shape grid = Ok false
      <-> offScreen = true \/ coincide = Ok true).
Proof.
  intros shape offScreen coincide.
  split; [reflexivity|].
  assert (Hvalid : isValidPosition x y shape grid
                   = if offScreen then Ok false
                     else let* b := coincide in Ok (negb b)).
  { unfold isValidPosition, offScreen, coincide, shape. cbn [lookup list_lookup].
    unfold not, isNotNullOrUndefined. cbn [negb orb].
    destruct (isOffScreen _ _ _ _); reflexivity. }
  rewrite Hvalid. clearbody offScreen coincide.
  destruct offScreen.
  - intuition congruence.
  - destruct coincide as [[|]|e]; cbn [bind negb]; intuition congruence.
Qed.

(** ** Rotation requests *)

Lemma edgeState_reachable :
  run (replicate 4 (Move Block.WIDTH 0)) = Ok edgeState.
Proof. vm_compute. reflexivity. Qed.

(** C1 (counterexample).  With the L piece against the right wall the rotated
    shape is off screen, and the Rotate event moves the piece one block down
    instead of leaving the state unchanged. *)
Lemma rotate_invalid_not_noop :
  State.gameEnd edgeState = false
  /\ (exists rotated,
        rotateShapeClockwise
          (TetrominoObject.shape (State.currentTetromino edgeState)) = Ok rotated
        /\ isValidPosition 160 0 rotated (State.grid edgeState) = Ok false)
  /\ reduceState edgeState Rotate
     = Ok (set_currentTetromino edgeState
             (with_y (State.currentTetromino edgeState) 20))
  /\ reduceState edgeState Rotate <> Ok edgeState.
Proof.
  split; [reflexivity|]. split.
  - eexists. split; [reflexivity|]. vm_compute. reflexivity.
  - split; [vm_compute; reflexivity|]. vm_compute. intros H. discriminate H.
Qed.

(** C1 (amended).  While the game is running, a Rotate event whose rotated
    shape is not a valid position at the current piece's coordinates is
    handled as a clock tick. *)
Theorem rotate_invalid_ticks (s : State.t) (rotated : TetrominoShape) :
  State.gameEnd s = false ->
  rotateShapeClockwise (TetrominoObject.shape (State.currentTetromino s))
  = Ok rotated ->
  isValidPosition (TetrominoObject.x (State.currentTetromino s))
    (TetrominoObject.y (State.currentTetromino s)) rotated (State.grid s)
  = Ok false ->
  reduceState s Rotate = tick s.
Proof.
  intros Hplay Hrot Hinv.
  unfold reduceState. rewrite Hplay.
  unfold rotateTetrimino, createTetriminoAction, rotateAction.
  rewrite Hrot. cbn [bind prop_x prop_y prop_shape].
  rewrite Hinv. reflexivity.
Qed.

Lemma rotate_invalid_ticks_witness :
  reduceState edgeState Rotate = tick edgeState.
Proof.
  apply (rotate_invalid_ticks edgeState
           (numbers [[1; 1; 1]; [1; 0; 0]]%Z)).
  - reflexivity.
  - reflexivity.
  - vm_compute. reflexivity.
Defined.

(** ** Restart *)

(** C10.  A Space event after the game has ended resets [gameEnd], [score],
    [grid], [level] and both pieces, and keeps [highScore] and [tickRate]. *)
Theorem restart_keeps_highScore_tickRate (s : State.t) :
  State.gameEnd s = true ->
  exists s' current next,
    reduceState s Space = Ok s'
    /\ getRandomTetrimono 1 = Ok current
    /\ getRandomTetrimono 2 = Ok next
    /\ State.gameEnd s' = false
    /\ State.score s' = 0%Z
    /\ State.grid s' = emptyGrid
    /\ State.level s' = 0%Z
    /\ State.currentTetromino s' = current
    /\ State.nextTetromino s' = next
    /\ State.highScore s' = State.highScore s
    /\ State.tickRate s' = State.tickRate s.
Proof.
  intros Hend. unfold reduceState. rewrite Hend.
  do 3 eexists. repeat split.
Qed.

Lemma restart_keeps_highScore_tickRate_witness :
  exists s' current next,
    reduceState endedState Space = Ok s'
    /\ getRandomTetrimono 1 = Ok current
    /\ getRandomTetrimono 2 = Ok next
    /\ State.gameEnd s' = false
    /\ State.score s' = 0%Z
    /\ State.grid s' = emptyGrid
    /\ State.level s' = 0%Z
    /\ State.currentTetromino s' = current
    /\ State.nextTetromino s' = next
    /\ State.highScore s' = State.highScore endedState
    /\ State.tickRate s' = State.tickRate endedState.
Proof.
  apply (restart_keeps_highScore_tickRate endedState). reflexivity.
Defined.

(** ** Drop position *)

(** C6.  On the empty 20 by 10 grid the cube dropped from the top left
    corner rests on row 18 and the horizontal line on row 19. *)
Theorem findDropPosition_scenarios :
  (exists row, findDropPosition emptyGrid 0 0 (numbers [[1; 1]; [1; 1]]%Z) = Ok row
               /\ (row == 18)%Q)
  /\ (exists row, findDropPosition emptyGrid 0 0 (numbers [[1; 1; 1; 1]]%Z) = Ok row
                  /\ (row == 19)%Q).
Proof.
  split; eexists; (split; [vm_compute; reflexivity | reflexivity]).
Qed.

(** ** Level range *)

(** The points are never negative: they count the filled rows. *)
Lemma clearedGridAndPoints_points (grid : Grid) :
  gp_points (clearedGridAndPoints grid)
  = Z.of_nat (length (List.filter isRowFilled grid)).
Proof.
  unfold clearedGridAndPoints. cbn [gp_points].
  pose proof (List.filter_length isRowFilled grid). lia.
Qed.

(** Every transition other than the restart keeps the level in range, so
    the range holds for every state reached without a Space event. *)

Ltac bind_inv H :=
  match type of H with
  | bind ?r _ = Ok _ =>
      let E := fresh "E" in
      destruct r eqn:E; cbn [bind] in H; [|discriminate H]
  end.

Lemma computeGridAndUpdateState_level (getY : State.t -> result Q)
  (s s' : State.t) :
  computeGridAndUpdateState getY s = Ok s' ->
  (0 <= State.score s)%Z -> level_in_range s'.
Proof.
  unfold computeGridAndUpdateState. intros H Hscore.
  repeat bind_inv H. injection H as <-.
  unfold level_in_range. cbn [State.level State.score lt_level updateLevelAndTickRate].
  change (Z.of_nat (length a0) - _)%Z
    with (gp_points (clearedGridAndPoints a0)).
  rewrite clearedGridAndPoints_points.
  set (points := Z.of_nat _).
  assert (0 <= points)%Z by apply Nat2Z.is_nonneg.
  assert (0 <= (State.score s + points) / 5)%Z by (apply Z.div_pos; lia).
  lia.
Qed.

Lemma handleGameEnd_level (s s' : State.t) :
  handleGameEnd s = Ok s' -> level_in_range s -> level_in_range s'.
Proof.
  unfold handleGameEnd. intros H Hs.
  bind_inv H. injection H as <-. exact Hs.
Qed.

Lemma tick_level (s s' : State.t) :
  tick s = Ok s' -> level_in_range s -> level_in_range s'.
Proof.
  unfold tick. intros H Hs.
  bind_inv H. destruct a; cbn [negb] in H.
  - bind_inv H. destruct a; cbn [negb] in H.
    + injection H as <-. exact Hs.
    + eapply computeGridAndUpdateState_level; [exact H | apply Hs].
  - eapply handleGameEnd_level; eassumption.
Qed.

Lemma createTetriminoAction_level actionFn (s s' : State.t) stateChange :
  createTetriminoAction actionFn s stateChange = Ok s' ->
  level_in_range s -> level_in_range s'.
Proof.
  unfold createTetriminoAction. intros H Hs.
  do 2 bind_inv H. destruct a0.
  - injection H as <-. exact Hs.
  - destruct (_ || _).
    + eapply tick_level; eassumption.
    + injection H as <-. exact Hs.
Qed.

Lemma reduceState_level (s s' : State.t) (e : StateChange) :
  reduceState s e = Ok s' ->
  e <> Space ->
  level_in_range s -> level_in_range s'.
Proof.
  unfold reduceState. intros H He Hs.
  destruct e, (State.gameEnd s); try congruence;
    try (injection H as <-; exact Hs);
    try (eapply tick_level; eassumption).
  - eapply createTetriminoAction_level; eassumption.
  - eapply computeGridAndUpdateState_level; [exact H | apply Hs].
  - eapply createTetriminoAction_level; eassumption.
Qed.

Lemma scan_level (events : list StateChange) (s s' : State.t) :
  scan s events = Ok s' ->
  Forall (fun e => e <> Space) events ->
  level_in_range s -> level_in_range s'.
Proof.
  revert s. induction events as [|e events IH]; cbn [scan]; intros s H Hev Hs.
  - injection H as <-. exact Hs.
  - bind_inv H. inversion Hev; subst.
    eapply IH; [exact H | assumption |].
    eapply reduceState_level; eassumption.
Qed.

Lemma run_level (events : list StateChange) (s : State.t) :
  run events = Ok s ->
  Forall (fun e => e <> Space) events ->
  (1 <= State.level s <= 15)%Z.
Proof.
  unfold run. intros H Hev. bind_inv H.
  eapply scan_level; [exact H | exact Hev |].
  vm_compute in E. injection E as <-.
  unfold level_in_range. cbn. lia.
Qed.

(** C2 (failing input).  Ten hard drops stack the pieces up to the spawn
    row, the next tick ends the game, and the restart leaves [level] at 0,
    outside [1, 15]; the tick rate stays at the value of level 1. *)
Theorem restart_level_out_of_range :
  exists s,
    run (replicate 10 Drop ++ [Tick; Space]) = Ok s
    /\ State.gameEnd s = false
    /\ State.level s = 0%Z
    /\ ~ (1 <= State.level s <= 15)%Z.
Proof.
  eexists. split; [vm_compute; reflexivity|].
  cbn. repeat split. lia.
Qed.

(** ** Piece generator *)

Lemma fround_exact (z : Z) : (Z.abs z < 2 ^ 53)%Z -> fround z = z.
Proof.
  intros Hz. unfold fround.
  replace (Z.abs z <? 2 ^ 53)%Z with true by (symmetry; apply Z.ltb_lt; exact Hz).
  reflexivity.
Qed.

Lemma fround_nonneg (z : Z) : (0 <= z)%Z -> (0 <= fround z)%Z.
Proof.
  intros Hz. unfold fround.
  destruct (Z.abs z <? 2 ^ 53)%Z; [exact Hz|].
  apply Z.mul_nonneg_nonneg; [apply Z.sgn_nonneg; exact Hz|].
  apply Z.shiftl_nonneg.
  assert (Hq : (0 <= Z.shiftr (Z.abs z) (Z.log2 (Z.abs z) - 52))%Z)
    by (apply Z.shiftr_nonneg; lia).
  destruct (_ || _); lia.
Qed.

Lemma RNG_modulus_range (seed : Z) :
  (0 <= seed)%Z -> (0 <= RNG.modulus (RNG.hash seed) < 8)%Z.
Proof.
  intros Hseed. unfold RNG.modulus, RNG.hash.
  apply Z.rem_bound_pos; [|lia].
  apply Z.rem_nonneg; [unfold RNG.m; lia|].
  apply fround_nonneg.
  assert (0 <= fround (RNG.a * seed))%Z
    by (apply fround_nonneg; unfold RNG.a; lia).
  unfold RNG.c. lia.
Qed.

Lemma tetrominoMapping_range (n : Z) :
  (0 <= n < 8)%Z ->
  exists key t, tetrominoMapping n = Some key /\ tetrominoShapes key = Some t
                /\ TetrominoObject.type t = key
                /\ TetrominoObject.y t = 0%Z
                /\ In key [cube; line; tee; lShape; reverseLShape; zShape;
                           reverseZShape; Bomb].
Proof.
  intros Hn.
  assert (Hcases : (n = 0 \/ n = 1 \/ n = 2 \/ n = 3 \/ n = 4 \/ n = 5
                    \/ n = 6 \/ n = 7)%Z) by lia.
  repeat (destruct Hcases as [-> | Hcases]); try subst n;
    do 2 eexists; (split; [reflexivity|]); (split; [reflexivity|]);
    (split; [reflexivity|]); (split; [reflexivity|]); cbn; tauto.
Qed.





(** The rounding shows from id 8149935 on, where the product passes 2^53:
    the exact hash would select the line, the rounded one selects the
    cube. *)
Example test_getRandomTetrimono_rounding :
  RNG.modulus (Z.rem (RNG.a * (12345 + 8149935) + RNG.c) RNG.m) = 1%Z
  /\ RNG.modulus (RNG.hash (12345 + 8149935)) = 0%Z
  /\ RNG.modulus (RNG.hash (12345 + 8149927)) = 1%Z
  /\ map (fun id => RNG.modulus (RNG.hash (12345 + id)))
       [40000000; 40000001; 40000002; 40000003; 40000004; 40000005;
        40000006; 40000007]%Z
     = [0; 0; 0; 0; 0; 0; 0; 0]%Z.
Proof. repeat split. Qed.

(** While the arithmetic is exact, up to id 8149933, the kind follows
    [5 * id + 6] modulo eight. *)
Lemma getRandomTetrimono_kind (id : Z) :
  (0 <= id <= 8149933)%Z ->
  RNG.modulus (RNG.hash (fround (12345 + id))) = ((5 * id + 6) mod 8)%Z.
Proof.
  intros Hid. unfold RNG.modulus, RNG.hash, RNG.a, RNG.c, RNG.m.
  assert (H53 : (2 ^ 53 = 9007199254740992)%Z) by reflexivity.
  rewrite (fround_exact (12345 + id)) by lia.
  rewrite (fround_exact (1103515245 * (12345 + id))) by lia.
  rewrite (fround_exact (1103515245 * (12345 + id) + 12345)) by lia.
  rewrite (Z.rem_mod_nonneg (1103515245 * (12345 + id) + 12345)) by lia.
  rewrite Z.rem_mod_nonneg by (try apply Z.mod_pos_bound; lia).
  change 2147483648%Z with (8 * 268435456)%Z.
  rewrite Z.rem_mul_r by lia.
  rewrite (Z.mul_comm 8 (_ mod _)), Z.mod_add by lia.
  rewrite Z.mod_mod by lia.
  replace (1103515245 * (12345 + id) + 12345)%Z
    with ((5 * id + 6) + (1702861963983 + 137939405 * id) * 8)%Z by lia.
  apply Z.mod_add. lia.
Qed.

(** ** Clearing filled rows *)

(** C5.  [clearedGridAndPoints] keeps the number of rows, reports as points
    the number of rows that [isRowFilled] accepts, and returns that many
    rows of ten empty cells followed by the rows that are not filled, in
    their original order. *)
Theorem clearedGridAndPoints_spec (grid : Grid) :
  let result := clearedGridAndPoints grid in
  let filled := length (List.filter isRowFilled grid) in
  length (gp_grid result) = length grid
  /\ gp_points result = Z.of_nat filled
  /\ gp_grid result
     = replicate filled (replicate 10 emptyCell)
       ++ List.filter (fun row => negb (isRowFilled row)) grid
  /\ Forall (fun cell => GridObject.value cell = Some 0%Z)
       (replicate 10 emptyCell).
Proof.
  intros result filled.
  pose proof (clearedGridAndPoints_points grid) as Hpoints.
  fold result filled in Hpoints.
  assert (Hgrid : gp_grid result
                  = replicate filled (replicate 10 emptyCell)
                    ++ List.filter (fun row => negb (isRowFilled row)) grid).
  { unfold result, clearedGridAndPoints at 1. cbn [gp_grid].
    change (Z.of_nat (length grid)
            - Z.of_nat (length (List.filter (fun row => negb (isRowFilled row)) grid)))%Z
      with (gp_points (clearedGridAndPoints grid)).
    fold result. rewrite Hpoints, Nat2Z.id. reflexivity. }
  repeat split; try assumption.
  - rewrite Hgrid, length_app, length_replicate. unfold filled.
    apply List.filter_length.
  - apply Forall_replicate. reflexivity.
Qed.

(** ** The bomb *)


(** ** Stamping at an integer row returns *)

Lemma Qindex_of_nat (q : Q) (n : nat) :
  (q == inject_Z (Z.of_nat n))%Q -> Qindex q = Some n.
Proof.
  unfold Qeq, Qindex. cbn [Qnum Qden inject_Z]. intros H.
  rewrite Z.mul_1_r in H. rewrite H.
  rewrite Z.mod_mul, Z.div_mul by lia.
  rewrite Z.eqb_refl. cbn [andb].
  replace (0 <=? Z.of_nat n * Z.pos (Qden q))%Z with true
    by (symmetry; apply Z.leb_le; lia).
  rewrite Nat2Z.id. reflexivity.
Qed.

Lemma aligned_quotient (a b : Z) :
  (0 < b)%Z -> (a mod b = 0)%Z ->
  (inject_Z a / inject_Z b == inject_Z (a / b))%Q.
Proof.
  intros Hb Hmod.
  assert (Ha : a = (b * (a / b))%Z) by (apply Z.div_exact; lia).
  rewrite Ha at 1. rewrite inject_Z_mult.
  field. intros H. unfold Qeq in H. cbn in H. lia.
Qed.

Lemma Array_map_from_total {A B} (f : A -> nat -> result B) (l : list A) (i : nat) :
  (forall a j, exists b, f a j = Ok b) ->
  exists bs, Array_map_from f i l = Ok bs.
Proof.
  intros Hf. revert i. induction l as [|a l IH]; intros i; cbn.
  - eauto.
  - destruct (Hf a i) as [b ->]. destruct (IH (S i)) as [bs ->]. cbn. eauto.
Qed.

(** Stamping a shape at an integer grid row never reads a missing shape
    row. *)
Lemma addTetrominoToGrid_total (grid : Grid) (x y : Q) (k : Z)
  (shape : TetrominoShape) (color : Color) :
  (y == inject_Z k)%Q ->
  exists grid', addTetrominoToGrid grid x y shape color = Ok grid'.
Proof.
  intros Hy. unfold addTetrominoToGrid, Array_map.
  apply Array_map_from_total. intros row rowIndex.
  destruct (Qle_bool y (inject_Z (Z.of_nat rowIndex))
            && Qltb (inject_Z (Z.of_nat rowIndex))
                 (y + inject_Z (Z.of_nat (length shape)))) eqn:Hrow;
    [|eauto].
  apply andb_prop in Hrow as [Hle Hlt].
  apply Qle_bool_iff in Hle. rewrite Hy in Hle. rewrite <- Zle_Qle in Hle.
  unfold Qltb in Hlt. apply negb_true_iff in Hlt.
  assert (Hlt' : (Z.of_nat rowIndex < k + Z.of_nat (length shape))%Z).
  { destruct (Z.lt_ge_cases (Z.of_nat rowIndex) (k + Z.of_nat (length shape)))
      as [?|Hge]; [assumption|].
    exfalso. rewrite Zle_Qle, inject_Z_plus, <- Hy in Hge.
    apply Qle_bool_iff in Hge. congruence. }
  assert (Hidx : Qindex (inject_Z (Z.of_nat rowIndex) - y)
                 = Some (Z.to_nat (Z.of_nat rowIndex - k))).
  { apply Qindex_of_nat. rewrite Z2Nat.id by lia. rewrite Hy.
    unfold Zminus. rewrite inject_Z_plus, inject_Z_opp. reflexivity. }
  destruct (lookup_lt_is_Some_2 shape (Z.to_nat (Z.of_nat rowIndex - k)))
    as [shapeRow HshapeRow]; [lia|].
  apply Array_map_from_total. intros cell colIndex.
  destruct (Qle_bool x (inject_Z (Z.of_nat colIndex))); [|eauto].
  unfold at_ at 1. rewrite Hidx, HshapeRow.
  destruct (_ && _); eauto.
Qed.


(** ** Rotation *)

Section Rotation.
Context {T : Type}.
Implicit Types shape : list (list (option T)).

Lemma rectangular_row R C shape i row :
  rectangular R C shape -> shape !! i = Some row -> length row = C.
Proof.
  intros [_ Hrows] Hrow. rewrite Forall_lookup in Hrows. eauto.
Qed.

Lemma rectangular_ext R C shape1 shape2 :
  rectangular R C shape1 -> rectangular R C shape2 ->
  (forall i j, i < R -> j < C -> entry shape1 i j = entry shape2 i j) ->
  shape1 = shape2.
Proof.
  intros H1 H2 Hentries. apply list_eq. intros i.
  destruct (decide (i < R)) as [Hi|Hi].
  - destruct (lookup_lt_is_Some_2 shape1 i) as [row1 Hrow1];
      [destruct H1; lia|].
    destruct (lookup_lt_is_Some_2 shape2 i) as [row2 Hrow2];
      [destruct H2; lia|].
    rewrite Hrow1, Hrow2. f_equal. apply list_eq. intros j.
    pose proof (rectangular_row _ _ _ _ _ H1 Hrow1) as Hlen1.
    pose proof (rectangular_row _ _ _ _ _ H2 Hrow2) as Hlen2.
    destruct (decide (j < C)) as [Hj|Hj].
    + specialize (Hentries i j Hi Hj). unfold entry in Hentries.
      rewrite Hrow1, Hrow2 in Hentries. exact Hentries.
    + rewrite !lookup_ge_None_2 by lia. reflexivity.
  - destruct H1, H2. rewrite !lookup_ge_None_2 by lia. reflexivity.
Qed.

(** One rotation of an R by C shape: the result is C by R and its entry
    (i, j) is the entry (R - 1 - j, i) of the input. *)
Lemma rotateShapeClockwise_rectangular R C shape :
  rectangular (S R) C shape ->
  exists rotated,
    rotateShapeClockwise shape = Ok rotated
    /\ rectangular C (S R) rotated
    /\ forall i j, i < C -> j < S R ->
         entry rotated i j = entry shape (R - j) i.
Proof.
  intros Hrect. pose proof Hrect as [Hlen Hrows].
  destruct shape as [|row0 rest]; [discriminate|].
  assert (Hrow0 : length row0 = C)
    by (eapply rectangular_row with (i := 0); [exact Hrect | reflexivity]).
  unfold rotateShapeClockwise. cbn [lookup list_lookup].
  eexists. split; [reflexivity|]. rewrite Hrow0.
  set (shape := row0 :: rest) in *.
  split; [split|].
  - rewrite length_imap, length_replicate. reflexivity.
  - apply Forall_lookup. intros i row Hrow.
    rewrite list_lookup_imap in Hrow.
    destruct (replicate C None !! i); [|discriminate].
    cbn [fmap option_fmap option_map] in Hrow. injection Hrow as <-.
    rewrite length_fmap, length_reverse. exact Hlen.
  - intros i j Hi Hj. unfold entry.
    rewrite list_lookup_imap, lookup_replicate_2 by assumption.
    cbn [fmap option_fmap option_map].
    rewrite list_lookup_fmap, reverse_lookup by lia.
    replace (length shape - S j) with (R - j) by lia.
    destruct (lookup_lt_is_Some_2 shape (R - j)) as [row Hrow]; [lia|].
    rewrite Hrow. cbn [fmap option_fmap option_map].
    pose proof (rectangular_row _ _ _ _ _ Hrect Hrow) as Hlenrow.
    destruct (lookup_lt_is_Some_2 row i) as [v Hv]; [lia|].
    rewrite Hv. reflexivity.
Qed.

(** C7.  Four clockwise rotations of a shape with at least one row, all
    rows of one non-zero length, give back the shape. *)
Theorem rotateShapeClockwise_four_times shape (C : nat) :
  shape <> [] ->
  C <> 0 ->
  Forall (fun row => length row = C) shape ->
  (let* once := rotateShapeClockwise shape in
   let* twice := rotateShapeClockwise once in
   let* thrice := rotateShapeClockwise twice in
   rotateShapeClockwise thrice) = Ok shape.
Proof.
  intros Hrows Hcols Hrect.
  destruct (length shape) as [|R] eqn:HR;
    [destruct shape; [congruence | discriminate]|].
  destruct C as [|C]; [congruence|].
  assert (H0 : rectangular (S R) (S C) shape) by (split; assumption).
  destruct (rotateShapeClockwise_rectangular _ _ _ H0) as (s1 & -> & H1 & E1).
  destruct (rotateShapeClockwise_rectangular _ _ _ H1) as (s2 & E & H2 & E2).
  cbn [bind]. rewrite E. clear E.
  destruct (rotateShapeClockwise_rectangular _ _ _ H2) as (s3 & E & H3 & E3).
  cbn [bind]. rewrite E. clear E.
  destruct (rotateShapeClockwise_rectangular _ _ _ H3) as (s4 & E & H4 & E4).
  cbn [bind]. rewrite E. clear E.
  f_equal. apply (rectangular_ext (S R) (S C)); [assumption..|].
  intros i j Hi Hj.
  rewrite E4, E3, E2, E1 by lia.
  f_equal; lia.
Qed.

End Rotation.

Lemma rotateShapeClockwise_four_times_witness :
  (let* once := rotateShapeClockwise (numbers [[1; 2; 3]; [4; 5; 6]]%Z) in
   let* twice := rotateShapeClockwise once in
   let* thrice := rotateShapeClockwise twice in
   rotateShapeClockwise thrice) = Ok (numbers [[1; 2; 3]; [4; 5; 6]]%Z).
Proof.
  apply (rotateShapeClockwise_four_times
           (numbers [[1; 2; 3]; [4; 5; 6]]%Z) 3).
  - discriminate.
  - discriminate.
  - repeat constructor.
Defined.

(** * Further properties of the reducer *)

(** ** Clearing filled rows, continued *)

Lemma filter_not_filled_id (grid : Grid) :
  Forall (fun row => isRowFilled row = false) grid ->
  List.filter (fun row => negb (isRowFilled row)) grid = grid.
Proof.
  induction 1 as [|row grid Hrow _ IH]; cbn [List.filter]; [reflexivity|].
  rewrite Hrow. cbn [negb]. f_equal. exact IH.
Qed.

Lemma clearedGridAndPoints_rows_not_filled (grid : Grid) :
  Forall (fun row => isRowFilled row = false)
    (gp_grid (clearedGridAndPoints grid)).
Proof.
  unfold clearedGridAndPoints. cbn [gp_grid].
  apply Forall_app. split.
  - apply Forall_replicate. reflexivity.
  - apply Forall_forall. intros row Hrow.
    apply list_elem_of_In, List.filter_In in Hrow as [_ Hrow].
    apply negb_true_iff. exact Hrow.
Qed.

(** X1.  The grid returned by [clearedGridAndPoints] has no filled row. *)
Theorem clearedGridAndPoints_no_filled_row (grid : Grid) :
  Forall (fun row => isRowFilled row = false)
    (gp_grid (clearedGridAndPoints grid)).
Proof. intros. eapply clearedGridAndPoints_rows_not_filled; eassumption. Qed.

(** X2.  Clearing is idempotent: a second pass returns the same grid and
    scores no point. *)
Theorem clearedGridAndPoints_idempotent (grid : Grid) :
  clearedGridAndPoints (gp_grid (clearedGridAndPoints grid))
  = mkGridAndPoints (gp_grid (clearedGridAndPoints grid)) 0.
Proof.
  pose proof (clearedGridAndPoints_rows_not_filled grid) as Hclear.
  set (cleared := gp_grid (clearedGridAndPoints grid)) in *.
  unfold clearedGridAndPoints.
  rewrite (filter_not_filled_id cleared Hclear).
  rewrite Z.sub_diag. reflexivity.
Qed.

(** ** Level and tick rate *)

(** X3.  For a non-negative total score the level lies in [1, 15] and the
    tick rate, [500 - 30 * level], in [50, 470]; the cap is reached from 70
    points on. *)
Theorem updateLevelAndTickRate_range (score newPoints : Z) :
  (0 <= score + newPoints)%Z ->
  let r := updateLevelAndTickRate score newPoints in
  (1 <= lt_level r <= 15)%Z
  /\ (50 <= lt_tickRate r <= 470)%Z
  /\ lt_tickRate r = (Constants.TICK_RATE_MS - 30 * lt_level r)%Z
  /\ (lt_level r = 15 <-> 70 <= score + newPoints)%Z.
Proof.
  intros Htotal r. unfold r, updateLevelAndTickRate, Constants.TICK_RATE_MS.
  cbn [lt_level lt_tickRate].
  pose proof (Z.div_mod (score + newPoints) 5 ltac:(lia)) as Hdiv.
  pose proof (Z.mod_pos_bound (score + newPoints) 5 ltac:(lia)) as Hmod.
  set (q := ((score + newPoints) / 5)%Z) in *.
  repeat split; lia.
Qed.

Lemma updateLevelAndTickRate_range_witness :
  let r := updateLevelAndTickRate 68 3 in
  (1 <= lt_level r <= 15)%Z
  /\ (50 <= lt_tickRate r <= 470)%Z
  /\ lt_tickRate r = (Constants.TICK_RATE_MS - 30 * lt_level r)%Z
  /\ (lt_level r = 15 <-> 70 <= 68 + 3)%Z.
Proof.
  apply (updateLevelAndTickRate_range 68 3). discriminate.
Defined.

(** X4.  A larger total score never lowers the level and never raises the
    tick rate. *)
Theorem updateLevelAndTickRate_monotone (score1 points1 score2 points2 : Z) :
  (score1 + points1 <= score2 + points2)%Z ->
  (lt_level (updateLevelAndTickRate score1 points1)
   <= lt_level (updateLevelAndTickRate score2 points2))%Z
  /\ (lt_tickRate (updateLevelAndTickRate score2 points2)
      <= lt_tickRate (updateLevelAndTickRate score1 points1))%Z.
Proof.
  intros Hle. unfold updateLevelAndTickRate. cbn [lt_level lt_tickRate].
  assert (Hdiv : ((score1 + points1) / 5 <= (score2 + points2) / 5)%Z)
    by (apply Z.div_le_mono; lia).
  lia.
Qed.

Lemma updateLevelAndTickRate_monotone_witness :
  (lt_level (updateLevelAndTickRate 3 1)
   <= lt_level (updateLevelAndTickRate 10 5))%Z
  /\ (lt_tickRate (updateLevelAndTickRate 10 5)
      <= lt_tickRate (updateLevelAndTickRate 3 1))%Z.
Proof.
  apply (updateLevelAndTickRate_monotone 3 1 10 5). discriminate.
Defined.

(** ** Moves *)

(** X5.  While the game is running, a Move whose target position is invalid
    leaves the state unchanged when it has a horizontal part, and is handled
    as a tick when its horizontal part is zero. *)
Theorem move_invalid (s : State.t) (dx dy : Z) :
  let cur := State.currentTetromino s in
  State.gameEnd s = false ->
  isValidPosition (TetrominoObject.x cur + dx) (TetrominoObject.y cur + dy)
    (TetrominoObject.shape cur) (State.grid s) = Ok false ->
  reduceState s (Move dx dy) = if (dx =? 0)%Z then tick s else Ok s.
Proof.
  intros cur Hplay Hinvalid.
  unfold reduceState. rewrite Hplay.
  unfold moveTetrimino, createTetriminoAction, moveAction.
  cbn [bind prop_x prop_y prop_shape StateChange_x StateChange_y or0].
  fold cur. rewrite Hinvalid.
  unfold not, isNotNullOrUndefined. cbn [negb orb]. reflexivity.
Qed.

Lemma move_invalid_witness :
  reduceState edgeState (Move 20 0)
  = if (20 =? 0)%Z then tick edgeState else Ok edgeState.
Proof.
  apply (move_invalid edgeState 20 0).
  - reflexivity.
  - vm_compute. reflexivity.
Defined.

(** X6.  A Move whose target position is valid translates the current piece
    and changes nothing else. *)
Theorem move_valid (s : State.t) (dx dy : Z) :
  let cur := State.currentTetromino s in
  State.gameEnd s = false ->
  isValidPosition (TetrominoObject.x cur + dx) (TetrominoObject.y cur + dy)
    (TetrominoObject.shape cur) (State.grid s) = Ok true ->
  reduceState s (Move dx dy)
  = Ok (State.mk false
          (TetrominoObject.mk (TetrominoObject.id cur)
             (TetrominoObject.shape cur) (TetrominoObject.color cur)
             (TetrominoObject.x cur + dx) (TetrominoObject.y cur + dy)
             (TetrominoObject.type cur))
          (State.nextTetromino s) (State.grid s) (State.score s)
          (State.level s) (State.highScore s) (State.tickRate s)).
Proof.
  intros cur Hplay Hvalid.
  unfold reduceState. rewrite Hplay.
  unfold moveTetrimino, createTetriminoAction, moveAction.
  cbn [bind prop_x prop_y prop_shape StateChange_x StateChange_y or0].
  fold cur. rewrite Hvalid.
  unfold set_currentTetromino, with_properties. rewrite Hplay. reflexivity.
Qed.

Lemma move_valid_witness :
  reduceState edgeState (Move (-20) 0)
  = Ok (State.mk false
          (TetrominoObject.mk 1 (numbers [[1; 0]; [1; 0]; [1; 1]]%Z) orange
             (160 + -20) (0 + 0) lShape)
          (State.nextTetromino edgeState) emptyGrid 0 1 0 500).
Proof.
  apply (move_valid edgeState (-20) 0).
  - reflexivity.
  - vm_compute. reflexivity.
Defined.

(** ** How a running game steps *)

(** What a settle ([dropTetromino], [handleAddTetromino]) does to the state
    besides the grid. *)
Lemma computeGridAndUpdateState_frame (getY : State.t -> result Q)
  (s s' : State.t) :
  computeGridAndUpdateState getY s = Ok s' ->
  State.gameEnd s' = State.gameEnd s
  /\ State.highScore s' = State.highScore s
  /\ State.currentTetromino s' = State.nextTetromino s
  /\ getRandomTetrimono (TetrominoObject.id (State.nextTetromino s) + 1)
     = Ok (State.nextTetromino s')
  /\ (State.score s <= State.score s')%Z
  /\ State.level s' = Z.min (State.score s' / 5 + 1) 15
  /\ State.tickRate s' = (Constants.TICK_RATE_MS - 30 * State.level s')%Z.
Proof.
  unfold computeGridAndUpdateState. intros H.
  bind_inv H. bind_inv H. bind_inv H. injection H as <-.
  cbn [State.gameEnd State.highScore State.currentTetromino
       State.nextTetromino State.score State.level State.tickRate
       lt_level lt_tickRate updateLevelAndTickRate].
  repeat split; try reflexivity.
  match goal with
  | |- (_ <= _ + ?p)%Z =>
      change p with (gp_points (clearedGridAndPoints a0))
  end.
  rewrite clearedGridAndPoints_points. lia.
Qed.

Lemma handleGameEnd_frame (s s' : State.t) :
  handleGameEnd s = Ok s' ->
  State.gameEnd s' = true
  /\ State.score s' = State.score s
  /\ State.level s' = State.level s
  /\ State.tickRate s' = State.tickRate s
  /\ State.highScore s' = Z.max (State.highScore s) (State.score s).
Proof.
  unfold handleGameEnd. intros H. bind_inv H. injection H as <-.
  cbn [State.gameEnd State.score State.level State.tickRate State.highScore].
  repeat split.
  destruct (Z.gtb_spec (State.score s) (State.highScore s)); lia.
Qed.

(** The three ways a tick can turn out. *)
Lemma tick_cases (s s' : State.t) :
  tick s = Ok s' ->
  let cur := State.currentTetromino s in
  (isValidPosition (TetrominoObject.x cur) (TetrominoObject.y cur)
     (TetrominoObject.shape cur) (State.grid s) = Ok false
   /\ handleGameEnd s = Ok s')
  \/ (isValidPosition (TetrominoObject.x cur)
        (TetrominoObject.y cur + Block.HEIGHT)
        (TetrominoObject.shape cur) (State.grid s) = Ok false
      /\ handleAddTetromino s = Ok s')
  \/ (isValidPosition (TetrominoObject.x cur)
        (TetrominoObject.y cur + Block.HEIGHT)
        (TetrominoObject.shape cur) (State.grid s) = Ok true
      /\ s' = set_currentTetromino s
                (with_y cur (TetrominoObject.y cur + Block.HEIGHT))).
Proof.
  intros H cur. unfold tick in H. fold cur in H.
  bind_inv H. destruct a; cbn [negb] in H.
  - bind_inv H. destruct a; cbn [negb] in H.
    + right. right. split; [reflexivity|]. injection H as <-. reflexivity.
    + right. left. split; [reflexivity | exact H].
  - left. split; [reflexivity | exact H].
Qed.

(** The ways a move or rotation request can turn out. *)
Lemma createTetriminoAction_cases actionFn (s s' : State.t) stateChange :
  createTetriminoAction actionFn s stateChange = Ok s' ->
  (exists p,
     actionFn s stateChange = Ok p
     /\ isValidPosition (prop_x p) (prop_y p) (prop_shape p) (State.grid s)
        = Ok true
     /\ s' = set_currentTetromino s
               (with_properties (State.currentTetromino s) p))
  \/ tick s = Ok s'
  \/ s' = s.
Proof.
  unfold createTetriminoAction. intros H.
  bind_inv H. bind_inv H. destruct a0.
  - left. exists a. repeat split; try assumption. injection H as <-. reflexivity.
  - destruct (_ || _).
    + right. left. exact H.
    + right. right. injection H as <-. reflexivity.
Qed.

(** Every step of a running game keeps the state up to the current piece,
    ends the game, or settles the current piece. *)
Lemma reduceState_playing_cases (s s' : State.t) (e : StateChange) :
  State.gameEnd s = false ->
  reduceState s e = Ok s' ->
  s' = s
  \/ (exists piece, s' = set_currentTetromino s piece)
  \/ handleGameEnd s = Ok s'
  \/ (exists getY, computeGridAndUpdateState getY s = Ok s').
Proof.
  intros Hplay H. unfold reduceState in H. rewrite Hplay in H.
  assert (Htick : tick s = Ok s' ->
                  s' = s
                  \/ (exists piece, s' = set_currentTetromino s piece)
                  \/ handleGameEnd s = Ok s'
                  \/ (exists getY, computeGridAndUpdateState getY s = Ok s')).
  { intros Ht. apply tick_cases in Ht as [[_ Ht]|[[_ Ht]|[_ Ht]]].
    - right. right. left. exact Ht.
    - right. right. right. eexists. exact Ht.
    - right. left. eexists. exact Ht. }
  assert (Haction : forall actionFn stateChange,
             createTetriminoAction actionFn s stateChange = Ok s' ->
             s' = s
             \/ (exists piece, s' = set_currentTetromino s piece)
             \/ handleGameEnd s = Ok s'
             \/ (exists getY, computeGridAndUpdateState getY s = Ok s')).
  { intros actionFn stateChange Ha.
    apply createTetriminoAction_cases in Ha as [(p & _ & _ & Hp)|[Ht|Hs]].
    - right. left. eexists. exact Hp.
    - apply Htick. exact Ht.
    - left. exact Hs. }
  destruct e; try (apply Htick; exact H).
  - eapply Haction. exact H.
  - right. right. right. eexists. exact H.
  - eapply Haction. exact H.
Qed.

(** ** Scores *)

(** X7.  No event lowers the high score, and no event other than the restart
    lowers the score. *)
Theorem reduceState_scores_monotone (s s' : State.t) (e : StateChange) :
  reduceState s e = Ok s' ->
  (State.highScore s <= State.highScore s')%Z
  /\ (e <> Space -> State.score s <= State.score s')%Z.
Proof.
  intros H. destruct (State.gameEnd s) eqn:Hend.
  - unfold reduceState in H. rewrite Hend in H.
    destruct e; try (injection H as <-; split; intros; lia).
    bind_inv H. bind_inv H. injection H as <-.
    cbn [State.highScore]. split; [lia | congruence].
  - destruct (reduceState_playing_cases s s' e Hend H)
      as [->|[[piece ->]|[Hg|[getY Hc]]]].
    + split; intros; lia.
    + cbn. split; intros; lia.
    + apply handleGameEnd_frame in Hg as (_ & -> & _ & _ & ->).
      split; intros; lia.
    + apply computeGridAndUpdateState_frame in Hc as (_ & -> & _ & _ & Hs & _).
      split; intros; lia.
Qed.

Lemma reduceState_scores_monotone_witness :
  exists s',
    reduceState blockedState Tick = Ok s'
    /\ (State.highScore blockedState <= State.highScore s')%Z
    /\ (Tick <> Space -> State.score blockedState <= State.score s')%Z.
Proof.
  eexists. split; [vm_compute; reflexivity|].
  apply (reduceState_scores_monotone blockedState _ Tick).
  vm_compute. reflexivity.
Defined.

(** X8.  When an event ends a running game, the score is unchanged and the
    high score of the ended state is the larger of the old high score and
    that score. *)
Theorem game_end_highScore (s s' : State.t) (e : StateChange) :
  State.gameEnd s = false ->
  reduceState s e = Ok s' ->
  State.gameEnd s' = true ->
  State.score s' = State.score s
  /\ State.highScore s' = Z.max (State.highScore s) (State.score s)
  /\ handleGameEnd s = Ok s'.
Proof.
  intros Hplay H Hend.
  destruct (reduceState_playing_cases s s' e Hplay H)
    as [->|[[piece ->]|[Hg|[getY Hc]]]].
  - congruence.
  - cbn in Hend. congruence.
  - pose proof Hg as Hg'.
    apply handleGameEnd_frame in Hg as (_ & -> & _ & _ & ->).
    repeat split. exact Hg'.
  - apply computeGridAndUpdateState_frame in Hc as (Hc & _). congruence.
Qed.

Lemma game_end_highScore_witness :
  exists s',
    reduceState blockedState Tick = Ok s'
    /\ State.score s' = State.score blockedState
    /\ State.highScore s'
       = Z.max (State.highScore blockedState) (State.score blockedState)
    /\ handleGameEnd blockedState = Ok s'.
Proof.
  eexists. split; [vm_compute; reflexivity|].
  apply (game_end_highScore blockedState _ Tick).
  - reflexivity.
  - vm_compute. reflexivity.
  - reflexivity.
Defined.

(** X9.  After the game has ended every event but Space leaves the state as
    it is. *)
Theorem scan_ended_absorbing (s : State.t) (events : list StateChange) :
  State.gameEnd s = true ->
  Forall (fun e => e <> Space) events ->
  scan s events = Ok s.
Proof.
  intros Hend Hev. induction Hev as [|e events He _ IH]; [reflexivity|].
  cbn [scan]. unfold reduceState. rewrite Hend.
  destruct e; try congruence; cbn [bind]; exact IH.
Qed.

Lemma scan_ended_absorbing_witness :
  scan endedState [Tick; Move 20 0; Rotate; Drop] = Ok endedState.
Proof.
  apply (scan_ended_absorbing endedState).
  - reflexivity.
  - repeat constructor; discriminate.
Defined.

(** ** Piece generator, continued *)

Lemma getRandomTetrimono_index (id : Z) (n : Z) :
  (0 <= id <= 8149933)%Z ->
  ((5 * id + 6) mod 8 = n)%Z ->
  exists key t,
    tetrominoMapping n = Some key /\ tetrominoShapes key = Some t
    /\ TetrominoObject.type t = key
    /\ getRandomTetrimono id = Ok (with_id t id).
Proof.
  intros Hid Hn.
  assert (Hrange : (0 <= n < 8)%Z)
    by (subst n; apply Z.mod_pos_bound; lia).
  destruct (tetrominoMapping_range n Hrange)
    as (key & t & Hkey & Ht & Htype & _).
  exists key, t. repeat split; try assumption.
  unfold getRandomTetrimono. cbv zeta.
  rewrite getRandomTetrimono_kind by assumption.
  rewrite Hn, Hkey, Ht. reflexivity.
Qed.

(** X10.  While the generator's arithmetic is exact, that is for ids from 0
    with [id + 8 <= 8149933], the generator has period eight: the piece of
    [id + 8] is the piece of [id] with the new id. *)
Theorem getRandomTetrimono_period (id : Z) :
  (0 <= id)%Z ->
  (id + 8 <= 8149933)%Z ->
  exists piece,
    getRandomTetrimono id = Ok piece
    /\ getRandomTetrimono (id + 8) = Ok (with_id piece (id + 8)).
Proof.
  intros Hid Hmax.
  destruct (getRandomTetrimono_index id _ ltac:(lia) eq_refl)
    as (key & t & Hkey & Ht & _ & Hpiece).
  assert (Hsame : ((5 * (id + 8) + 6) mod 8 = (5 * id + 6) mod 8)%Z).
  { replace (5 * (id + 8) + 6)%Z with (5 * id + 6 + 5 * 8)%Z by lia.
    apply Z.mod_add. lia. }
  destruct (getRandomTetrimono_index (id + 8) _ ltac:(lia) Hsame)
    as (key' & t' & Hkey' & Ht' & _ & Hpiece').
  exists (with_id t id). split; [exact Hpiece|].
  rewrite Hpiece'. replace t' with t by congruence. reflexivity.
Qed.

Lemma getRandomTetrimono_period_witness :
  exists piece,
    getRandomTetrimono 1 = Ok piece
    /\ getRandomTetrimono (1 + 8) = Ok (with_id piece (1 + 8)).
Proof.
  apply (getRandomTetrimono_period 1); discriminate.
Defined.

Lemma kind_index_shift (q c : Z) :
  ((5 * (8 * q + c) + 6) mod 8 = (5 * c + 6) mod 8)%Z.
Proof.
  replace (5 * (8 * q + c) + 6)%Z with (5 * c + 6 + (5 * q) * 8)%Z by lia.
  apply Z.mod_add. lia.
Qed.

(** X11.  While the generator's arithmetic is exact, that is for ids from 0
    with [id + 7 <= 8149933], any eight consecutive ids produce each of the
    eight kinds. *)
Theorem getRandomTetrimono_covers_kinds (id : Z) (key : Tetromino) :
  (0 <= id)%Z ->
  (id + 7 <= 8149933)%Z ->
  In key [cube; line; tee; lShape; reverseLShape; zShape; reverseZShape; Bomb] ->
  exists j piece,
    (0 <= j < 8)%Z
    /\ getRandomTetrimono (id + j) = Ok piece
    /\ TetrominoObject.type piece = key.
Proof.
  intros Hid Hmax Hkey.
  assert (Hsplit : exists q r, (id = 8 * q + r /\ 0 <= r < 8)%Z).
  { exists (id / 8)%Z, (id mod 8)%Z. split.
    - apply Z.div_mod. lia.
    - apply Z.mod_pos_bound. lia. }
  destruct Hsplit as (q & r & -> & Hr).
  assert (Hgen : forall j n, (0 <= j < 8)%Z ->
                   ((5 * (r + j) + 6) mod 8 = n)%Z ->
                   tetrominoMapping n = Some key ->
                   exists j piece,
                     (0 <= j < 8)%Z
                     /\ getRandomTetrimono (8 * q + r + j) = Ok piece
                     /\ TetrominoObject.type piece = key).
  { intros j n Hj Hn Hmap.
    destruct (getRandomTetrimono_index (8 * q + r + j) n ltac:(lia))
      as (key' & t & Hkey' & Ht & Htype & Hpiece).
    - rewrite <- Z.add_assoc, kind_index_shift. exact Hn.
    - exists j. eexists. split; [exact Hj|]. split; [exact Hpiece|].
      cbn. congruence. }
  assert (Hcases : (r = 0 \/ r = 1 \/ r = 2 \/ r = 3 \/ r = 4 \/ r = 5
                    \/ r = 6 \/ r = 7)%Z) by lia.
  cbn [In] in Hkey. clear Hmax Hr Hid.
  repeat (destruct Hcases as [-> | Hcases]); try subst r;
    repeat (destruct Hkey as [<- | Hkey]); try contradiction;
    first [ apply (Hgen 0%Z _ ltac:(lia) eq_refl); reflexivity
          | apply (Hgen 1%Z _ ltac:(lia) eq_refl); reflexivity
          | apply (Hgen 2%Z _ ltac:(lia) eq_refl); reflexivity
          | apply (Hgen 3%Z _ ltac:(lia) eq_refl); reflexivity
          | apply (Hgen 4%Z _ ltac:(lia) eq_refl); reflexivity
          | apply (Hgen 5%Z _ ltac:(lia) eq_refl); reflexivity
          | apply (Hgen 6%Z _ ltac:(lia) eq_refl); reflexivity
          | apply (Hgen 7%Z _ ltac:(lia) eq_refl); reflexivity ].
Qed.

Lemma getRandomTetrimono_covers_kinds_witness :
  exists j piece,
    (0 <= j < 8)%Z
    /\ getRandomTetrimono (3 + j) = Ok piece
    /\ TetrominoObject.type piece = Bomb.
Proof.
  apply (getRandomTetrimono_covers_kinds 3 Bomb).
  - discriminate.
  - discriminate.
  - cbn. tauto.
Defined.

(** ** Integer grid coordinates *)

Lemma Qle_bool_int (x : Q) (kx c : Z) :
  (x == inject_Z kx)%Q -> Qle_bool x (inject_Z c) = (kx <=? c)%Z.
Proof.
  intros Hx. apply eq_true_iff_eq.
  rewrite Qle_bool_iff, Hx, <- Zle_Qle, Z.leb_le. reflexivity.
Qed.

Lemma Qltb_int (x : Q) (kx c n : Z) :
  (x == inject_Z kx)%Q ->
  Qltb (inject_Z c) (x + inject_Z n) = (c <? kx + n)%Z.
Proof.
  intros Hx. unfold Qltb. rewrite Z.ltb_antisym. f_equal.
  apply eq_true_iff_eq.
  rewrite Qle_bool_iff, Hx, <- inject_Z_plus, <- Zle_Qle, Z.leb_le.
  reflexivity.
Qed.

Lemma Qindex_int (q : Q) (k : Z) :
  (q == inject_Z k)%Q ->
  Qindex q = if (0 <=? k)%Z then Some (Z.to_nat k) else None.
Proof.
  intros Hq. destruct (Z.leb_spec 0 k) as [Hk|Hk].
  - apply Qindex_of_nat. rewrite Z2Nat.id by lia. exact Hq.
  - unfold Qeq in Hq. cbn [Qnum Qden inject_Z] in Hq.
    unfold Qindex.
    replace (0 <=? Qnum q)%Z with false
      by (symmetry; apply Z.leb_gt; nia).
    rewrite andb_false_r. reflexivity.
Qed.

Lemma Qminus_int (x : Q) (kx c : Z) :
  (x == inject_Z kx)%Q -> (inject_Z c - x == inject_Z (c - kx))%Q.
Proof.
  intros Hx. rewrite Hx. unfold Zminus.
  rewrite inject_Z_plus, inject_Z_opp. reflexivity.
Qed.

Lemma Qplus_int (x : Q) (kx c : Z) :
  (x == inject_Z kx)%Q -> (x + inject_Z c == inject_Z (kx + c))%Q.
Proof.
  intros Hx. rewrite Hx, inject_Z_plus. reflexivity.
Qed.

Lemma at_int {A} (arr : list A) (q : Q) (k : Z) :
  (q == inject_Z k)%Q ->
  at_ arr q = if (0 <=? k)%Z then arr !! Z.to_nat k else None.
Proof.
  intros Hq. unfold at_. rewrite (Qindex_int q k Hq).
  destruct (0 <=? k)%Z; reflexivity.
Qed.

(** ** Array helpers *)

Lemma Array_map_from_lookup {A B} (f : A -> nat -> result B) (l : list A)
  (i : nat) (bs : list B) :
  Array_map_from f i l = Ok bs ->
  length bs = length l
  /\ forall j a, l !! j = Some a ->
       exists b, bs !! j = Some b /\ f a (i + j) = Ok b.
Proof.
  revert i bs. induction l as [|a l IH]; intros i bs H; cbn in H.
  - injection H as <-. split; [reflexivity|]. intros j a Ha. discriminate.
  - bind_inv H. bind_inv H. injection H as <-.
    destruct (IH _ _ E0) as [Hlen Hlookup].
    split; [cbn; congruence|].
    intros [|j] a' Ha'; cbn in Ha'.
    + injection Ha' as <-. exists a0. rewrite Nat.add_0_r. split; [reflexivity|assumption].
    + destruct (Hlookup j a' Ha') as (b & Hb & Hf).
      exists b. split; [exact Hb|]. rewrite Nat.add_succ_r. exact Hf.
Qed.

Lemma Array_some_from_spec {A} (f : A -> nat -> result bool)
  (P : A -> nat -> Prop) (l : list A) (i : nat) :
  (forall j a, l !! j = Some a ->
     exists b, f a (i + j) = Ok b /\ (b = true <-> P a (i + j))) ->
  exists b, Array_some_from f i l = Ok b
            /\ (b = true <-> exists j a, l !! j = Some a /\ P a (i + j)).
Proof.
  revert i. induction l as [|a l IH]; intros i Hf; cbn [Array_some_from].
  - exists false. split; [reflexivity|].
    split; [discriminate|]. intros (j & a & Ha & _). discriminate.
  - destruct (Hf 0 a eq_refl) as (b & Hb & HP).
    rewrite Nat.add_0_r in Hb, HP. rewrite Hb. cbn [bind].
    destruct b.
    + exists true. split; [reflexivity|]. split; [|reflexivity].
      intros _. exists 0, a. rewrite Nat.add_0_r.
      split; [reflexivity | apply HP; reflexivity].
    + destruct (IH (S i)) as (b & Hrest & Hiff).
      { intros j a' Ha'. specialize (Hf (S j) a' Ha').
        rewrite Nat.add_succ_r in Hf. exact Hf. }
      exists b. split; [exact Hrest|]. rewrite Hiff. split.
      * intros (j & a' & Ha' & HPa). exists (S j), a'.
        rewrite Nat.add_succ_r. split; assumption.
      * intros ([|j] & a' & Ha' & HPa).
        -- cbn in Ha'. injection Ha' as <-. rewrite Nat.add_0_r in HPa.
           apply HP in HPa. discriminate.
        -- exists j, a'. rewrite Nat.add_succ_r in HPa. split; assumption.
Qed.

(** The accumulation [acc || inner(row, index)] of [shapeAndGridCoincide]. *)
Lemma Array_reduce_from_or {A} (inner : A -> nat -> result bool)
  (P : A -> nat -> Prop) (l : list A) (i : nat) (acc : bool) :
  (forall j a, l !! j = Some a ->
     exists b, inner a (i + j) = Ok b /\ (b = true <-> P a (i + j))) ->
  exists b,
    Array_reduce_from
      (fun (acc : bool) a index => if acc then Ok true else inner a index)
      i l acc = Ok b
    /\ (b = true <-> acc = true \/ exists j a, l !! j = Some a /\ P a (i + j)).
Proof.
  revert i acc. induction l as [|a l IH]; intros i acc Hf;
    cbn [Array_reduce_from].
  - exists acc. split; [reflexivity|]. split; [auto|].
    intros [H|(j & a & Ha & _)]; [exact H | discriminate].
  - assert (Hrest : forall j a', l !! j = Some a' ->
              exists b, inner a' (S i + j) = Ok b
                        /\ (b = true <-> P a' (S i + j))).
    { intros j a' Ha'. specialize (Hf (S j) a' Ha').
      rewrite Nat.add_succ_r in Hf. exact Hf. }
    destruct (Hf 0 a eq_refl) as (b0 & Hb0 & HP0).
    rewrite Nat.add_0_r in Hb0, HP0.
    destruct acc; cbn [bind].
    + destruct (IH (S i) true Hrest) as (b & Hb & Hiff).
      exists b. split; [exact Hb|]. split; [auto|].
      intros _. apply Hiff. left. reflexivity.
    + rewrite Hb0. cbn [bind].
      destruct (IH (S i) b0 Hrest) as (b & Hb & Hiff).
      exists b. split; [exact Hb|]. rewrite Hiff. split.
      * intros [H0|(j & a' & Ha' & HPa)].
        -- right. exists 0, a. rewrite Nat.add_0_r.
           split; [reflexivity | apply HP0; exact H0].
        -- right. exists (S j), a'. rewrite Nat.add_succ_r.
           split; assumption.
      * intros [H|([|j] & a' & Ha' & HPa)]; [discriminate| |].
        -- cbn in Ha'. injection Ha' as <-. rewrite Nat.add_0_r in HPa.
           left. apply HP0. exact HPa.
        -- right. exists j, a'. rewrite Nat.add_succ_r in HPa.
           split; assumption.
Qed.

Lemma is1_true (v : option Z) : is1 v = true <-> v = Some 1%Z.
Proof.
  destruct v as [[|[| |]|]|]; cbn; split; intros H; congruence.
Qed.

Lemma cellAt_length_None (grid grid' : Grid) (r c : nat) :
  length grid' = length grid ->
  grid !! r = None -> cellAt grid' r c = None.
Proof.
  intros Hlen Hr. unfold cellAt.
  rewrite (lookup_ge_None_2 grid'); [reflexivity|].
  apply lookup_ge_None_1 in Hr. lia.
Qed.

(** ** Stamping a shape *)

(** X12.  At an integer grid position [addTetrominoToGrid] returns a grid
    with the cells of its input: a cell under a 1 of the shape becomes
    [{color, value: 1}], every other cell is kept, and no cell appears
    outside the grid. *)
Theorem addTetrominoToGrid_spec (grid : Grid) (x y : Q) (kx ky : Z)
  (shape : TetrominoShape) (color : Color) :
  (x == inject_Z kx)%Q ->
  (y == inject_Z ky)%Q ->
  exists grid',
    addTetrominoToGrid grid x y shape color = Ok grid'
    /\ forall r c,
         (cellAt grid r c = None /\ cellAt grid' r c = None)
         \/ (exists cell,
               cellAt grid r c = Some cell
               /\ ((shapeCell shape (Z.of_nat r - ky) (Z.of_nat c - kx)
                    = Some 1%Z
                    /\ cellAt grid' r c
                       = Some (GridObject.mk (Some color) (Some 1%Z)))
                   \/ (shapeCell shape (Z.of_nat r - ky) (Z.of_nat c - kx)
                       <> Some 1%Z
                       /\ cellAt grid' r c = Some cell))).
Proof.
  intros Hx Hy.
  destruct (addTetrominoToGrid_total grid x y ky shape color Hy)
    as [grid' Hgrid'].
  exists grid'. split; [exact Hgrid'|]. intros r c.
  unfold addTetrominoToGrid, Array_map in Hgrid'.
  apply Array_map_from_lookup in Hgrid' as [Hlen Hrows].
  destruct (grid !! r) as [row|] eqn:Hrow.
  2: { left. split; [unfold cellAt; rewrite Hrow; reflexivity|].
       eapply cellAt_length_None; eassumption. }
  destruct (Hrows r row Hrow) as (row' & Hrow' & Hcall). cbn [Nat.add] in Hcall.
  replace (cellAt grid r c) with (row !! c)
    by (unfold cellAt; rewrite Hrow; reflexivity).
  replace (cellAt grid' r c) with (row' !! c)
    by (unfold cellAt; rewrite Hrow'; reflexivity).
  rewrite (Qle_bool_int y ky _ Hy), (Qltb_int y ky _ _ Hy) in Hcall.
  unfold shapeCell, entry.
  destruct (Z.leb_spec ky (Z.of_nat r)) as [Hr1|Hr1]; cbn [andb] in Hcall.
  2: { injection Hcall as <-.
       replace (0 <=? Z.of_nat r - ky)%Z with false
         by (symmetry; apply Z.leb_gt; lia).
       cbn [andb].
       destruct (row !! c) as [cell|]; [right|left; split; reflexivity].
       exists cell. split; [reflexivity|]. right. split; [discriminate|reflexivity]. }
  destruct (Z.ltb_spec (Z.of_nat r) (ky + Z.of_nat (length shape)))
    as [Hr2|Hr2].
  2: { injection Hcall as <-.
       rewrite (lookup_ge_None_2 shape) by lia.
       destruct (row !! c) as [cell|]; [right|left; split; reflexivity].
       exists cell. split; [reflexivity|]. right.
       split; [|reflexivity]. destruct (_ && _); discriminate. }
  apply Array_map_from_lookup in Hcall as [Hlenrow Hcells].
  destruct (row !! c) as [cell|] eqn:Hcell.
  2: { left. split; [reflexivity|]. apply lookup_ge_None_2.
       apply lookup_ge_None_1 in Hcell. lia. }
  right. exists cell. split; [reflexivity|].
  destruct (Hcells c cell Hcell) as (cell' & Hcell' & Hinner).
  cbn [Nat.add] in Hinner. rewrite Hcell'.
  rewrite (Qle_bool_int x kx _ Hx) in Hinner.
  replace (0 <=? Z.of_nat r - ky)%Z with true
    by (symmetry; apply Z.leb_le; lia).
  cbn [andb].
  destruct (Z.leb_spec kx (Z.of_nat c)) as [Hc1|Hc1].
  2: { injection Hinner as <-.
       replace (0 <=? Z.of_nat c - kx)%Z with false
         by (symmetry; apply Z.leb_gt; lia).
       right. split; [discriminate|reflexivity]. }
  replace (0 <=? Z.of_nat c - kx)%Z with true
    by (symmetry; apply Z.leb_le; lia).
  rewrite (at_int shape _ _ (Qminus_int y ky _ Hy)) in Hinner.
  replace (0 <=? Z.of_nat r - ky)%Z with true in Hinner
    by (symmetry; apply Z.leb_le; lia).
  destruct (shape !! Z.to_nat (Z.of_nat r - ky)) as [shapeRow|] eqn:HshapeRow.
  2: { apply lookup_ge_None_1 in HshapeRow. lia. }
  rewrite (Qltb_int x kx _ _ Hx) in Hinner.
  rewrite (at_int shapeRow _ _ (Qminus_int x kx _ Hx)) in Hinner.
  replace (0 <=? Z.of_nat c - kx)%Z with true in Hinner
    by (symmetry; apply Z.leb_le; lia).
  destruct (Z.ltb_spec (Z.of_nat c) (kx + Z.of_nat (length shapeRow)))
    as [Hc2|Hc2]; cbn [andb] in Hinner.
  - destruct (is1 _) eqn:His1 in Hinner; injection Hinner as <-.
    + left. split; [|reflexivity]. apply is1_true. exact His1.
    + right. split; [|reflexivity]. intros Hone.
      apply is1_true in Hone. congruence.
  - injection Hinner as <-. right. split; [|reflexivity].
    rewrite (lookup_ge_None_2 shapeRow) by lia. discriminate.
Qed.

Lemma addTetrominoToGrid_spec_witness :
  exists grid',
    addTetrominoToGrid emptyGrid 4 17 (numbers [[1; 0]; [1; 0]; [1; 1]]%Z)
      orange = Ok grid'
    /\ forall r c,
         (cellAt emptyGrid r c = None /\ cellAt grid' r c = None)
         \/ (exists cell,
               cellAt emptyGrid r c = Some cell
               /\ ((shapeCell (numbers [[1; 0]; [1; 0]; [1; 1]]%Z)
                      (Z.of_nat r - 17) (Z.of_nat c - 4) = Some 1%Z
                    /\ cellAt grid' r c
                       = Some (GridObject.mk (Some orange) (Some 1%Z)))
                   \/ (shapeCell (numbers [[1; 0]; [1; 0]; [1; 1]]%Z)
                         (Z.of_nat r - 17) (Z.of_nat c - 4) <> Some 1%Z
                       /\ cellAt grid' r c = Some cell))).
Proof.
  apply (addTetrominoToGrid_spec emptyGrid 4 17 4 17); reflexivity.
Defined.

(** ** Game end, continued *)







(** ** Collision test *)

Lemma shapeCell_one (shape : TetrominoShape) (i j : Z) :
  shapeCell shape i j = Some 1%Z
  <-> (0 <= i)%Z /\ (0 <= j)%Z
      /\ exists row, shape !! Z.to_nat i = Some row
                     /\ row !! Z.to_nat j = Some (Some 1%Z).
Proof.
  unfold shapeCell, entry.
  destruct (Z.leb_spec 0 i), (Z.leb_spec 0 j); cbn [andb];
    try (split; [discriminate | intros (? & ? & _); lia]).
  destruct (shape !! Z.to_nat i) as [row|].
  - destruct (row !! Z.to_nat j) as [v|] eqn:Hrowj.
    + split.
      * intros ->. split; [assumption|]. split; [assumption|].
        exists row. split; [reflexivity | exact Hrowj].
      * intros (_ & _ & row' & Hrow' & Hv). congruence.
    + split; [discriminate|]. intros (_ & _ & row' & Hrow' & Hv). congruence.
  - split; [discriminate|]. intros (_ & _ & row' & Hrow' & _). discriminate.
Qed.

Lemma gridCell_Some (grid : Grid) (r c : Z) (cell : GridObject.t) :
  gridCell grid r c = Some cell
  <-> (0 <= r)%Z /\ (0 <= c)%Z
      /\ exists row, grid !! Z.to_nat r = Some row
                     /\ row !! Z.to_nat c = Some cell.
Proof.
  unfold gridCell, cellAt.
  destruct (Z.leb_spec 0 r), (Z.leb_spec 0 c); cbn [andb];
    try (split; [discriminate | intros (? & ? & _); lia]).
  destruct (grid !! Z.to_nat r) as [row|].
  - split.
    + intros Hcell. split; [assumption|]. split; [assumption|].
      exists row. split; [reflexivity | exact Hcell].
    + intros (_ & _ & row' & Hrow' & Hcell). congruence.
  - split; [discriminate|]. intros (_ & _ & row' & Hrow' & _). discriminate.
Qed.

Lemma shapeAndGridCoincide_integer (shape : TetrominoShape) (grid : Grid)
  (x y : Q) (kx ky : Z) :
  (x == inject_Z kx)%Q ->
  (y == inject_Z ky)%Q ->
  (forall i j, shapeCell shape i j = Some 1%Z ->
               gridCell grid (ky + i) (kx + j) <> None) ->
  exists b,
    shapeAndGridCoincide shape grid x y = Ok b
    /\ (b = true
        <-> exists i j cell,
              shapeCell shape i j = Some 1%Z
              /\ gridCell grid (ky + i) (kx + j) = Some cell
              /\ GridObject.value cell = Some 1%Z).
Proof.
  intros Hx Hy Hinside.
  set (P := fun (row : list (option Z)) (i : nat) =>
              exists j v, row !! j = Some v
                /\ (is1 v = true
                    /\ exists cell,
                         gridCell grid (ky + Z.of_nat i) (kx + Z.of_nat j)
                         = Some cell
                         /\ GridObject.value cell = Some 1%Z)).
  unfold shapeAndGridCoincide, Array_reduce.
  edestruct (Array_reduce_from_or
               (fun (row : list (option Z)) rowIndex =>
                  Array_some
                    (fun cell cellIndex =>
                       if is1 cell then
                         match at_ grid (y + inject_Z (Z.of_nat rowIndex)) with
                         | None => Err TypeError
                         | Some gridRow =>
                             match at_ gridRow
                                     (x + inject_Z (Z.of_nat cellIndex)) with
                             | None => Err TypeError
                             | Some gridCell =>
                                 Ok (is1 (GridObject.value gridCell))
                             end
                         end
                       else Ok false)
                    row)
               P shape 0 false) as (b & Hb & Hiff).
  { intros i row Hrow. cbn [Nat.add]. unfold Array_some, P.
    apply (Array_some_from_spec _
             (fun v j =>
                is1 v = true
                /\ exists cell,
                     gridCell grid (ky + Z.of_nat i) (kx + Z.of_nat j)
                     = Some cell
                     /\ GridObject.value cell = Some 1%Z) row 0).
    intros j v Hv. cbn [Nat.add].
    destruct (is1 v) eqn:His1.
    2: { exists false. split; [reflexivity|].
         split; [discriminate | intros [H _]; discriminate]. }
    assert (Hone : shapeCell shape (Z.of_nat i) (Z.of_nat j) = Some 1%Z).
    { apply shapeCell_one. repeat split; try lia.
      rewrite !Nat2Z.id. exists row. split; [exact Hrow|].
      apply is1_true in His1. congruence. }
    specialize (Hinside _ _ Hone).
    destruct (gridCell grid (ky + Z.of_nat i) (kx + Z.of_nat j))
      as [cell|] eqn:Hcell; [|congruence].
    pose proof Hcell as Hcell'.
    apply gridCell_Some in Hcell as (Hr & Hc & gridRow & HgridRow & Hgc).
    rewrite (at_int grid _ _ (Qplus_int y ky _ Hy)).
    replace (0 <=? ky + Z.of_nat i)%Z with true
      by (symmetry; apply Z.leb_le; exact Hr).
    rewrite HgridRow.
    rewrite (at_int gridRow _ _ (Qplus_int x kx _ Hx)).
    replace (0 <=? kx + Z.of_nat j)%Z with true
      by (symmetry; apply Z.leb_le; exact Hc).
    rewrite Hgc. eexists. split; [reflexivity|].
    rewrite is1_true. split.
    - intros Hval. split; [reflexivity|]. eauto.
    - intros (_ & cell' & Hsame & Hval). congruence. }
  exists b. split; [exact Hb|]. rewrite Hiff. split.
  - intros [H|(i & row & Hrow & j & v & Hv & His1 & cell & Hcell & Hval)];
      [discriminate|].
    cbn [Nat.add] in Hcell.
    exists (Z.of_nat i), (Z.of_nat j), cell. repeat split; try assumption.
    apply shapeCell_one. repeat split; try lia.
    rewrite !Nat2Z.id. exists row. split; [exact Hrow|].
    apply is1_true in His1. congruence.
  - intros (i & j & cell & Hone & Hcell & Hval). right.
    apply shapeCell_one in Hone as (Hi & Hj & row & Hrow & Hv).
    exists (Z.to_nat i), row. split; [exact Hrow|].
    exists (Z.to_nat j), (Some 1%Z). split; [exact Hv|].
    split; [reflexivity|]. exists cell. cbn [Nat.add].
    rewrite !Z2Nat.id by assumption. split; assumption.
Qed.

(** X13.  At an integer grid position where every 1 of the shape lies over
    a cell of the grid, [shapeAndGridCoincide] returns, and returns true
    exactly when some 1 of the shape lies over a cell of value 1. *)
Theorem shapeAndGridCoincide_spec (shape : TetrominoShape) (grid : Grid)
  (x y : Q) (kx ky : Z) :
  (x == inject_Z kx)%Q ->
  (y == inject_Z ky)%Q ->
  (forall i j, shapeCell shape i j = Some 1%Z ->
               gridCell grid (ky + i) (kx + j) <> None) ->
  exists b,
    shapeAndGridCoincide shape grid x y = Ok b
    /\ (b = true
        <-> exists i j cell,
              shapeCell shape i j = Some 1%Z
              /\ gridCell grid (ky + i) (kx + j) = Some cell
              /\ GridObject.value cell = Some 1%Z).
Proof. intros. eapply shapeAndGridCoincide_integer; eassumption. Qed.

Lemma shapeAndGridCoincide_spec_witness :
  exists b,
    shapeAndGridCoincide (numbers [[1; 1]; [1; 1]]%Z) fullGrid 0 0 = Ok b
    /\ (b = true
        <-> exists i j cell,
              shapeCell (numbers [[1; 1]; [1; 1]]%Z) i j = Some 1%Z
              /\ gridCell fullGrid (0 + i) (0 + j) = Some cell
              /\ GridObject.value cell = Some 1%Z).
Proof.
  apply (shapeAndGridCoincide_spec (numbers [[1; 1]; [1; 1]]%Z) fullGrid
           0 0 0 0); try reflexivity.
  intros i j Hone.
  apply shapeCell_one in Hone as (Hi & Hj & row & Hrow & Hv).
  assert (Hi' : (Z.to_nat i < 2)%nat)
    by (apply lookup_lt_Some in Hrow; exact Hrow).
  assert (Hj' : (Z.to_nat j < 2)%nat).
  { destruct (Z.to_nat i) as [|[|?]]; cbn in Hrow; try lia;
      injection Hrow as <-; apply lookup_lt_Some in Hv; exact Hv. }
  unfold gridCell, cellAt.
  replace (0 <=? 0 + i)%Z with true by (symmetry; apply Z.leb_le; lia).
  replace (0 <=? 0 + j)%Z with true by (symmetry; apply Z.leb_le; lia).
  cbn [andb]. unfold fullGrid.
  rewrite lookup_replicate_2 by lia.
  rewrite lookup_replicate_2 by lia. discriminate.
Defined.

(** ** Position validity on the game grid *)

Lemma gridSize_cell (R C : nat) (grid : Grid) (r c : Z) :
  gridSize R C grid ->
  (0 <= r < Z.of_nat R)%Z -> (0 <= c < Z.of_nat C)%Z ->
  exists cell, gridCell grid r c = Some cell.
Proof.
  intros [Hlen Hrows] Hr Hc.
  destruct (lookup_lt_is_Some_2 grid (Z.to_nat r)) as [row Hrow]; [lia|].
  assert (Hrowlen : length row = C)
    by (rewrite Forall_lookup in Hrows; eauto).
  destruct (lookup_lt_is_Some_2 row (Z.to_nat c)) as [cell Hcell]; [lia|].
  exists cell. apply gridCell_Some. repeat split; try lia. eauto.
Qed.

Lemma rectangular_shapeCell (R C : nat) (shape : TetrominoShape) (i j : Z) :
  rectangular R C shape ->
  shapeCell shape i j = Some 1%Z ->
  (0 <= i < Z.of_nat R)%Z /\ (0 <= j < Z.of_nat C)%Z.
Proof.
  intros Hrect Hone.
  apply shapeCell_one in Hone as (Hi & Hj & row & Hrow & Hv).
  pose proof (rectangular_row _ _ _ _ _ Hrect Hrow) as Hlen.
  apply lookup_lt_Some in Hrow. apply lookup_lt_Some in Hv.
  destruct Hrect as [HR _]. lia.
Qed.

Lemma isValidPosition_aligned (grid : Grid) (shape : TetrominoShape)
  (x y : Z) (R C : nat) :
  gridSize 20 10 grid ->
  rectangular (S R) C shape ->
  (x mod Block.WIDTH = 0)%Z ->
  (y mod Block.HEIGHT = 0)%Z ->
  (0 <= y)%Z ->
  exists b,
    isValidPosition x y shape grid = Ok b
    /\ (b = true
        <-> (0 <= x)%Z
            /\ (x + Z.of_nat C * Block.WIDTH <= Viewport.CANVAS_WIDTH)%Z
            /\ (y + Z.of_nat (S R) * Block.HEIGHT <= Viewport.CANVAS_HEIGHT)%Z
            /\ forall i j cell,
                 shapeCell shape i j = Some 1%Z ->
                 gridCell grid (y / Block.HEIGHT + i) (x / Block.WIDTH + j)
                 = Some cell ->
                 GridObject.value cell <> Some 1%Z).
Proof.
  intros Hgrid Hrect Hx Hy Hy0.
  pose proof Hrect as [Hlen Hrows].
  destruct shape as [|row0 rest]; [discriminate|].
  set (shape := row0 :: rest) in *.
  assert (Hrow0 : length row0 = C)
    by (eapply (rectangular_row _ _ shape 0); [exact Hrect | reflexivity]).
  assert (Hvalid : isValidPosition x y shape grid
                   = if isOffScreen x y (Z.of_nat C * Block.WIDTH)
                          (Z.of_nat (S R) * Block.HEIGHT)
                     then Ok false
                     else let* b := shapeAndGridCoincide shape grid
                                      (toGridCoordinates x Block.WIDTH)
                                      (toGridCoordinates y Block.HEIGHT) in
                          Ok (negb b)).
  { unfold isValidPosition.
    change (shape !! 0) with (Some row0).
    unfold not, isNotNullOrUndefined. cbn [negb orb].
    rewrite Hrow0, Hlen. destruct (isOffScreen _ _ _ _); reflexivity. }
  rewrite Hvalid. clear Hvalid.
  assert (Hxq : (toGridCoordinates x Block.WIDTH
                 == inject_Z (x / Block.WIDTH))%Q)
    by (apply aligned_quotient; [reflexivity | exact Hx]).
  assert (Hyq : (toGridCoordinates y Block.HEIGHT
                 == inject_Z (y / Block.HEIGHT))%Q)
    by (apply aligned_quotient; [reflexivity | exact Hy]).
  assert (Hxk : x = (Block.WIDTH * (x / Block.WIDTH))%Z)
    by (apply Z.div_exact; [discriminate | exact Hx]).
  assert (Hyk : y = (Block.HEIGHT * (y / Block.HEIGHT))%Z)
    by (apply Z.div_exact; [discriminate | exact Hy]).
  set (kx := (x / Block.WIDTH)%Z) in *.
  set (ky := (y / Block.HEIGHT)%Z) in *.
  change Block.WIDTH with 20%Z in *. change Block.HEIGHT with 20%Z in *.
  change Viewport.CANVAS_WIDTH with 200%Z.
  change Viewport.CANVAS_HEIGHT with 400%Z.
  unfold isOffScreen.
  change Viewport.CANVAS_WIDTH with 200%Z.
  change Viewport.CANVAS_HEIGHT with 400%Z.
  destruct (Z.ltb_spec x 0) as [Hx0|Hx0]; cbn [orb].
  { exists false. split; [reflexivity|]. split; [discriminate|]. lia. }
  destruct (Z.gtb_spec (x + Z.of_nat C * 20) 200) as [Hx1|Hx1]; cbn [orb].
  { exists false. split; [reflexivity|]. split; [discriminate|]. lia. }
  destruct (Z.gtb_spec (y + Z.of_nat (S R) * 20) 400) as [Hy1|Hy1].
  { exists false. split; [reflexivity|]. split; [discriminate|]. lia. }
  destruct (shapeAndGridCoincide_integer shape grid _ _ kx ky Hxq Hyq)
    as (b & Hb & Hiff).
  { intros i j Hone.
    destruct (rectangular_shapeCell _ _ _ _ _ Hrect Hone) as [Hi Hj].
    destruct (gridSize_cell 20 10 grid (ky + i) (kx + j) Hgrid) as [cell Hcell];
      [lia | lia |].
    congruence. }
  rewrite Hb. cbn [bind]. exists (negb b). split; [reflexivity|].
  rewrite negb_true_iff. split.
  - intros Hfalse. repeat split; try lia.
    intros i j cell Hone Hcell Hval.
    assert (b = true)
      by (apply Hiff; exists i, j, cell; repeat split; assumption).
    congruence.
  - intros (_ & _ & _ & Hfree).
    destruct b; [|reflexivity].
    destruct (proj1 Hiff eq_refl) as (i & j & cell & Hone & Hcell & Hval).
    exfalso. eapply Hfree; eassumption.
Qed.

(** X14.  On a 20 by 10 grid, for a rectangular shape at block-aligned
    pixels with [y >= 0], [isValidPosition] never throws; it returns true
    exactly when the bounding box lies inside the canvas and no 1 of the
    shape lies over a cell of value 1. *)
Theorem isValidPosition_game (grid : Grid) (shape : TetrominoShape)
  (x y : Z) (R C : nat) :
  gridSize 20 10 grid ->
  rectangular (S R) C shape ->
  (x mod Block.WIDTH = 0)%Z ->
  (y mod Block.HEIGHT = 0)%Z ->
  (0 <= y)%Z ->
  exists b,
    isValidPosition x y shape grid = Ok b
    /\ (b = true
        <-> (0 <= x)%Z
            /\ (x + Z.of_nat C * Block.WIDTH <= Viewport.CANVAS_WIDTH)%Z
            /\ (y + Z.of_nat (S R) * Block.HEIGHT <= Viewport.CANVAS_HEIGHT)%Z
            /\ forall i j cell,
                 shapeCell shape i j = Some 1%Z ->
                 gridCell grid (y / Block.HEIGHT + i) (x / Block.WIDTH + j)
                 = Some cell ->
                 GridObject.value cell <> Some 1%Z).
Proof. intros. eapply isValidPosition_aligned; eassumption. Qed.

Lemma isValidPosition_game_witness :
  exists b,
    isValidPosition 160 0 (numbers [[1; 0]; [1; 0]; [1; 1]]%Z) emptyGrid = Ok b
    /\ (b = true
        <-> (0 <= 160)%Z
            /\ (160 + Z.of_nat 2 * Block.WIDTH <= Viewport.CANVAS_WIDTH)%Z
            /\ (0 + Z.of_nat 3 * Block.HEIGHT <= Viewport.CANVAS_HEIGHT)%Z
            /\ forall i j cell,
                 shapeCell (numbers [[1; 0]; [1; 0]; [1; 1]]%Z) i j = Some 1%Z ->
                 gridCell emptyGrid (0 / Block.HEIGHT + i) (160 / Block.WIDTH + j)
                 = Some cell ->
                 GridObject.value cell <> Some 1%Z).
Proof.
  apply (isValidPosition_game emptyGrid (numbers [[1; 0]; [1; 0]; [1; 1]]%Z)
           160 0 2 2).
  - split; [reflexivity|]. apply Forall_replicate. reflexivity.
  - split; [reflexivity|]. repeat constructor.
  - reflexivity.
  - reflexivity.
  - discriminate.
Defined.

(** ** Drop position, continued *)

(** The descent loop of [findDropPosition]: it climbs down while the next
    position is valid and stays put from the first invalid one on. *)
Lemma findDropPosition_loop (grid : Grid) (x : Z) (shape : TetrominoShape)
  (n : nat) :
  forall (accY : Z) (i : nat),
    (forall k, (1 <= k <= Z.of_nat n)%Z ->
       exists b, isValidPosition x (accY + 20 * k) shape grid = Ok b) ->
    exists k,
      (0 <= k <= Z.of_nat n)%Z
      /\ Array_reduce_from
           (fun accY height (_ : nat) =>
              let nextY := (accY + height)%Z in
              let* valid := isValidPosition x nextY shape grid in
              Ok (if valid then nextY else accY))
           i (replicate n Block.HEIGHT) accY = Ok (accY + 20 * k)%Z
      /\ (forall j, (1 <= j <= k)%Z ->
            isValidPosition x (accY + 20 * j) shape grid = Ok true)
      /\ ((k < Z.of_nat n)%Z ->
          isValidPosition x (accY + 20 * (k + 1)) shape grid = Ok false).
Proof.
  set (step := fun accY height (_ : nat) =>
                 let nextY := (accY + height)%Z in
                 let* valid := isValidPosition x nextY shape grid in
                 Ok (if valid then nextY else accY)).
  induction n as [|n IH]; intros accY i Htotal.
  - exists 0%Z. cbn [replicate Array_reduce_from].
    rewrite Z.mul_0_r, Z.add_0_r. repeat split; try lia; intros; lia.
  - cbn [replicate Array_reduce_from].
    change Block.HEIGHT with 20%Z.
    destruct (Htotal 1%Z ltac:(lia)) as [b Hb].
    rewrite Z.mul_1_r in Hb. unfold step at 1. cbv zeta. rewrite Hb.
    cbn [bind].
    destruct b.
    + destruct (IH (accY + 20)%Z (S i)) as (k & Hk & Hred & Hvalid & Hnext).
      { intros k Hk. destruct (Htotal (k + 1)%Z ltac:(lia)) as [b Hb'].
        exists b. rewrite <- Hb'. f_equal. lia. }
      exists (k + 1)%Z. split; [lia|]. split.
      { change Block.HEIGHT with 20%Z in Hred. rewrite Hred. f_equal. lia. }
      split.
      * intros j Hj. destruct (Z.eq_dec j 1%Z) as [->|Hj1].
        -- rewrite Z.mul_1_r. exact Hb.
        -- rewrite <- (Hvalid (j - 1)%Z ltac:(lia)). f_equal. lia.
      * intros Hlt. rewrite <- (Hnext ltac:(lia)). f_equal. lia.
    + destruct (IH accY (S i)) as (k & Hk & Hred & Hvalid & Hnext).
      { intros k Hk. apply Htotal. lia. }
      assert (Hk0 : k = 0%Z).
      { destruct (Z.eq_dec k 0%Z) as [|Hne]; [assumption|].
        specialize (Hvalid 1%Z ltac:(lia)). rewrite Z.mul_1_r in Hvalid.
        congruence. }
      subst k. exists 0%Z. split; [lia|]. split.
      { change Block.HEIGHT with 20%Z in Hred. exact Hred. }
      split; [intros; lia|].
      intros _. cbn. exact Hb.
Qed.

Lemma findDropPosition_aligned (grid : Grid) (shape : TetrominoShape)
  (x y : Z) (R C : nat) :
  gridSize 20 10 grid ->
  rectangular (S R) C shape ->
  (x mod Block.WIDTH = 0)%Z ->
  (y mod Block.HEIGHT = 0)%Z ->
  (0 <= y <= 400)%Z ->
  exists k row,
    findDropPosition grid x y shape = Ok row
    /\ (0 <= k)%Z
    /\ (row == inject_Z (y / Block.HEIGHT + k))%Q
    /\ (forall j, (1 <= j <= k)%Z ->
          isValidPosition x (y + Block.HEIGHT * j) shape grid = Ok true)
    /\ isValidPosition x (y + Block.HEIGHT * (k + 1)) shape grid = Ok false.
Proof.
  intros Hgrid Hrect Hx Hy Hy0.
  assert (Hyk : y = (20 * (y / 20))%Z)
    by (apply Z.div_exact; [discriminate | exact Hy]).
  change Block.HEIGHT with 20%Z in *.
  set (ky := (y / 20)%Z) in *.
  set (n := Z.to_nat (20 - ky)).
  assert (Htotal : forall y', (y' mod 20 = 0)%Z -> (0 <= y')%Z ->
            exists b, isValidPosition x y' shape grid = Ok b
                      /\ (b = true -> y' + 20 <= 400)%Z).
  { intros y' Hy' Hy'0.
    destruct (isValidPosition_aligned grid shape x y' R C Hgrid Hrect Hx Hy' Hy'0)
      as (b & Hb & Hiff).
    exists b. split; [exact Hb|]. intros Htrue.
    apply Hiff in Htrue as (_ & _ & Hbound & _).
    change Block.HEIGHT with 20%Z in Hbound.
    change Viewport.CANVAS_HEIGHT with 400%Z in Hbound. lia. }
  assert (Haligned : forall k, ((y + 20 * k) mod 20 = 0)%Z).
  { intros k. rewrite Hyk, <- Z.mul_add_distr_l, Z.mul_comm.
    apply Z.mod_mul. discriminate. }
  destruct (findDropPosition_loop grid x shape n y 0)
    as (k & Hk & Hred & Hvalid & Hnext).
  { intros k Hk. destruct (Htotal (y + 20 * k)%Z (Haligned k) ltac:(lia))
      as (b & Hb & _). eauto. }
  exists k. eexists. split.
  - unfold findDropPosition.
    assert (Hn : Array_ (inject_Z (400 - y) / inject_Z 20)%Q = Ok n).
    { unfold Array_. rewrite (Qindex_of_nat _ n).
      - replace (Z.of_nat n <? 2 ^ 32)%Z with true; [reflexivity|].
        symmetry. apply Z.ltb_lt. unfold n.
        change (2 ^ 32)%Z with 4294967296%Z. lia.
      - rewrite aligned_quotient; [|reflexivity|].
        + unfold n. rewrite Z2Nat.id by lia.
          replace (400 - y)%Z with ((20 - ky) * 20)%Z by lia.
          rewrite Z.div_mul by discriminate. reflexivity.
        + replace (400 - y)%Z with ((20 - ky) * 20)%Z by lia.
          apply Z.mod_mul. discriminate. }
    change Block.HEIGHT with 20%Z. rewrite Hn. cbn [bind].
    unfold Array_reduce. cbv zeta.
    change Block.HEIGHT with 20%Z in Hred. cbv zeta in Hred.
    rewrite Hred. cbn [bind]. reflexivity.
  - split; [lia|]. split.
    + rewrite aligned_quotient; [|reflexivity | apply Haligned].
      replace (y + 20 * k)%Z with (y + k * 20)%Z by lia.
      rewrite Z.div_add by discriminate. reflexivity.
    + split; [exact Hvalid|].
      destruct (Z.lt_ge_cases k (Z.of_nat n)) as [Hlt|Hge];
        [apply Hnext; exact Hlt|].
      destruct (Htotal (y + 20 * (k + 1))%Z (Haligned _) ltac:(lia))
        as ([|] & Hb & Hbound); [|exact Hb].
      specialize (Hbound eq_refl). unfold n in *. lia.
Qed.

(** X15.  On a 20 by 10 grid, for a rectangular shape at block-aligned
    pixels with [0 <= y <= 400], [findDropPosition] returns the grid row
    [y / 20 + k] where the [k] positions below the start are all valid and
    the position after them is not: the piece never moves up and never
    passes through an invalid position. *)
Theorem findDropPosition_game (grid : Grid) (shape : TetrominoShape)
  (x y : Z) (R C : nat) :
  gridSize 20 10 grid ->
  rectangular (S R) C shape ->
  (x mod Block.WIDTH = 0)%Z ->
  (y mod Block.HEIGHT = 0)%Z ->
  (0 <= y <= 400)%Z ->
  exists k row,
    findDropPosition grid x y shape = Ok row
    /\ (0 <= k)%Z
    /\ (row == inject_Z (y / Block.HEIGHT + k))%Q
    /\ (forall j, (1 <= j <= k)%Z ->
          isValidPosition x (y + Block.HEIGHT * j) shape grid = Ok true)
    /\ isValidPosition x (y + Block.HEIGHT * (k + 1)) shape grid = Ok false.
Proof. intros. eapply findDropPosition_aligned; eassumption. Qed.

Lemma findDropPosition_game_witness :
  exists k row,
    findDropPosition emptyGrid 80 40 (numbers [[1; 0]; [1; 0]; [1; 1]]%Z)
    = Ok row
    /\ (0 <= k)%Z
    /\ (row == inject_Z (40 / Block.HEIGHT + k))%Q
    /\ (forall j, (1 <= j <= k)%Z ->
          isValidPosition 80 (40 + Block.HEIGHT * j)
            (numbers [[1; 0]; [1; 0]; [1; 1]]%Z) emptyGrid = Ok true)
    /\ isValidPosition 80 (40 + Block.HEIGHT * (k + 1))
         (numbers [[1; 0]; [1; 0]; [1; 1]]%Z) emptyGrid = Ok false.
Proof.
  apply (findDropPosition_game emptyGrid (numbers [[1; 0]; [1; 0]; [1; 1]]%Z)
           80 40 2 2).
  - split; [reflexivity|]. apply Forall_replicate. reflexivity.
  - split; [reflexivity|]. repeat constructor.
  - reflexivity.
  - reflexivity.
  - split; discriminate.
Defined.

(** ** The grid keeps its size *)

Lemma Array_map_from_same_length {A} (f : A -> nat -> result A)
  (P : A -> A -> Prop) (l bs : list A) (i : nat) :
  Array_map_from f i l = Ok bs ->
  (forall a b j, f a j = Ok b -> P a b) ->
  length bs = length l
  /\ forall j b, bs !! j = Some b -> exists a, l !! j = Some a /\ P a b.
Proof.
  intros Hmap HP.
  apply Array_map_from_lookup in Hmap as [Hlen Hlookup].
  split; [exact Hlen|]. intros j b Hb.
  destruct (lookup_lt_is_Some_2 l j) as [a Ha].
  { apply lookup_lt_Some in Hb. lia. }
  destruct (Hlookup j a Ha) as (b' & Hb' & Hf).
  exists a. split; [exact Ha|]. replace b with b' by congruence. eauto.
Qed.

Lemma addTetrominoToGrid_size (grid grid' : Grid) (x y : Q)
  (shape : TetrominoShape) (color : Color) (R C : nat) :
  addTetrominoToGrid grid x y shape color = Ok grid' ->
  gridSize R C grid -> gridSize R C grid'.
Proof.
  unfold addTetrominoToGrid, Array_map. intros Hmap [Hlen Hrows].
  apply (Array_map_from_same_length _ (fun row row' => length row' = length row))
    in Hmap as [Hlen' Hrows'].
  - split; [congruence|]. apply Forall_lookup. intros r row' Hrow'.
    destruct (Hrows' r row' Hrow') as (row & Hrow & Hsame).
    rewrite Forall_lookup in Hrows. rewrite Hsame. eauto.
  - intros row row' r Hcall. destruct (_ && _).
    + apply Array_map_from_lookup in Hcall as [Hsame _]. exact Hsame.
    + injection Hcall as <-. reflexivity.
Qed.

Lemma addBombToGrid_size (grid : Grid) (x y : Q) (color : Color) (R C : nat) :
  gridSize R C grid -> gridSize R C (addBombToGrid grid x y color).
Proof.
  intros [Hlen Hrows]. unfold addBombToGrid. split.
  - rewrite length_imap. exact Hlen.
  - apply Forall_lookup. intros r row' Hrow'.
    rewrite list_lookup_imap in Hrow'.
    destruct (grid !! r) as [row|] eqn:Hrow; [|discriminate].
    cbn [fmap option_fmap option_map] in Hrow'. injection Hrow' as <-.
    rewrite length_imap. rewrite Forall_lookup in Hrows. eauto.
Qed.

Lemma clearedGridAndPoints_size (grid : Grid) (R : nat) :
  gridSize R 10 grid -> gridSize R 10 (gp_grid (clearedGridAndPoints grid)).
Proof.
  intros [Hlen Hrows]. split.
  - pose proof (clearedGridAndPoints_points grid) as Hpoints.
    unfold clearedGridAndPoints in *. cbn [gp_grid gp_points] in *.
    rewrite length_app, length_replicate. lia.
  - unfold clearedGridAndPoints. cbn [gp_grid].
    apply Forall_app. split.
    + apply Forall_replicate. reflexivity.
    + apply Forall_forall. intros row Hrow.
      apply list_elem_of_In, List.filter_In in Hrow as [Hrow _].
      rewrite Forall_forall in Hrows. apply Hrows.
      apply list_elem_of_In. exact Hrow.
Qed.

(** ** The pieces stay well placed *)

Lemma with_id_pieceOk (piece : TetrominoObject.t) (id : Z) :
  pieceOk piece -> pieceOk (with_id piece id).
Proof. intros H. exact H. Qed.

Lemma tetrominoShapes_pieceOk (n : Z) :
  (0 <= n < 8)%Z ->
  exists key t, tetrominoMapping n = Some key /\ tetrominoShapes key = Some t
                /\ pieceOk t.
Proof.
  intros Hn.
  assert (Hcases : (n = 0 \/ n = 1 \/ n = 2 \/ n = 3 \/ n = 4 \/ n = 5
                    \/ n = 6 \/ n = 7)%Z) by lia.
  repeat (destruct Hcases as [-> | Hcases]); try subst n;
    do 2 eexists; (split; [reflexivity|]); (split; [reflexivity|]);
    (split; [do 2 eexists; split; [reflexivity | repeat constructor]|]);
    (split; [reflexivity|]); (split; [reflexivity|]); cbn; lia.
Qed.

Lemma getRandomTetrimono_pieceOk (id : Z) :
  (0 <= id)%Z ->
  exists piece,
    getRandomTetrimono id = Ok piece
    /\ pieceOk piece
    /\ TetrominoObject.id piece = id.
Proof.
  intros Hid. unfold getRandomTetrimono. cbv zeta.
  assert (Hrange : (0 <= RNG.modulus (RNG.hash (fround (12345 + id))) < 8)%Z)
    by (apply RNG_modulus_range, fround_nonneg; lia).
  destruct (tetrominoShapes_pieceOk _ Hrange) as (key & t & -> & -> & Hok).
  exists (with_id t id). split; [reflexivity|]. split; [|reflexivity].
  apply with_id_pieceOk. exact Hok.
Qed.

Lemma rotateShapeClockwise_pieceOk (piece : TetrominoObject.t) :
  pieceOk piece ->
  exists rotated,
    rotateShapeClockwise (TetrominoObject.shape piece) = Ok rotated
    /\ forall p, prop_shape p = rotated ->
         prop_x p = TetrominoObject.x piece ->
         prop_y p = TetrominoObject.y piece ->
         pieceOk (with_properties piece p).
Proof.
  intros ((R & C & Hrect) & Hx & Hy & Hy0).
  destruct (rotateShapeClockwise_rectangular _ _ _ Hrect)
    as (rotated & Hrot & Hrect' & _).
  exists rotated. split; [exact Hrot|].
  intros p Hshape Hpx Hpy. unfold pieceOk, with_properties.
  cbn [TetrominoObject.shape TetrominoObject.x TetrominoObject.y].
  rewrite Hshape, Hpx, Hpy. split; [eauto|]. repeat split; assumption || lia.
Qed.

(** Validity of a well-placed piece at a block-aligned target: the test
    returns, and a valid target is again well placed. *)
Lemma isValidPosition_pieceOk (grid : Grid) (piece : TetrominoObject.t)
  (x y : Z) :
  gridSize 20 10 grid ->
  pieceOk piece ->
  (x mod Block.WIDTH = 0)%Z -> (y mod Block.HEIGHT = 0)%Z -> (0 <= y)%Z ->
  exists b,
    isValidPosition x y (TetrominoObject.shape piece) grid = Ok b
    /\ (b = true ->
        pieceOk (with_properties piece
                   (mkProperties x y (TetrominoObject.shape piece)))).
Proof.
  intros Hgrid ((R & C & Hrect) & _) Hx Hy Hy0.
  destruct (isValidPosition_aligned grid _ x y R (S C) Hgrid Hrect Hx Hy Hy0)
    as (b & Hb & Hiff).
  exists b. split; [exact Hb|]. intros Htrue.
  apply Hiff in Htrue as (_ & _ & Hbound & _).
  change Block.HEIGHT with 20%Z in Hbound.
  change Viewport.CANVAS_HEIGHT with 400%Z in Hbound.
  unfold pieceOk, with_properties.
  cbn [TetrominoObject.shape TetrominoObject.x TetrominoObject.y
       prop_x prop_y prop_shape].
  split; [eauto|]. repeat split; assumption || lia.
Qed.

(** ** The reducer never throws on a well-formed state *)

Lemma handleGameEnd_wellFormed (s : State.t) :
  wellFormed s -> State.gameEnd s = false ->
  exists s', handleGameEnd s = Ok s' /\ wellFormed s'.
Proof.
  intros [Hgrid Hplay] Hrun.
  destruct (Hplay Hrun) as ((_ & _ & Hy & _) & _).
  unfold handleGameEnd.
  destruct (addTetrominoToGrid_total (State.grid s)
              (inject_Z (TetrominoObject.x (State.currentTetromino s))
               / inject_Z Block.WIDTH)%Q
              (inject_Z (TetrominoObject.y (State.currentTetromino s))
               / inject_Z Block.HEIGHT)%Q
              (TetrominoObject.y (State.currentTetromino s) / Block.HEIGHT)
              (TetrominoObject.shape (State.currentTetromino s))
              (TetrominoObject.color (State.currentTetromino s)))
    as [grid' Hgrid'].
  { apply aligned_quotient; [reflexivity | exact Hy]. }
  rewrite Hgrid'. cbn [bind]. eexists. split; [reflexivity|].
  split; cbn [State.grid State.gameEnd].
  - eapply addTetrominoToGrid_size; eassumption.
  - discriminate.
Qed.

Lemma computeGridAndUpdateState_wellFormed (getY : State.t -> result Q)
  (s : State.t) (row : Q) (k : Z) :
  wellFormed s -> State.gameEnd s = false ->
  getY s = Ok row -> (row == inject_Z k)%Q ->
  exists s', computeGridAndUpdateState getY s = Ok s' /\ wellFormed s'.
Proof.
  intros [Hgrid Hplay] Hrun HgetY Hrow.
  destruct (Hplay Hrun) as (_ & Hnext & Hid).
  unfold computeGridAndUpdateState. rewrite HgetY. cbn [bind].
  set (x := (inject_Z (TetrominoObject.x (State.currentTetromino s))
             / inject_Z Block.WIDTH)%Q).
  assert (Hstamp :
            exists grid',
              (if negb (Tetromino_eqb
                          (TetrominoObject.type (State.currentTetromino s)) Bomb)
               then addTetrominoToGrid (State.grid s) x row
                      (TetrominoObject.shape (State.currentTetromino s))
                      (TetrominoObject.color (State.currentTetromino s))
               else Ok (addBombToGrid (State.grid s) x row
                          (TetrominoObject.color (State.currentTetromino s))))
              = Ok grid'
              /\ gridSize 20 10 grid').
  { destruct (negb _).
    - destruct (addTetrominoToGrid_total (State.grid s) x row k
                  (TetrominoObject.shape (State.currentTetromino s))
                  (TetrominoObject.color (State.currentTetromino s)) Hrow)
        as [grid' Hgrid'].
      exists grid'. split; [exact Hgrid'|].
      eapply addTetrominoToGrid_size; eassumption.
    - eexists. split; [reflexivity|]. apply addBombToGrid_size. exact Hgrid. }
  destruct Hstamp as (grid' & -> & Hgrid'). cbn [bind].
  destruct (getRandomTetrimono_pieceOk
              (TetrominoObject.id (State.nextTetromino s) + 1) ltac:(lia))
    as (piece & -> & Hpiece & Hpid).
  cbn [bind]. eexists. split; [reflexivity|].
  split; cbn [State.grid State.gameEnd State.currentTetromino
              State.nextTetromino].
  - apply clearedGridAndPoints_size. exact Hgrid'.
  - intros _. split; [exact Hnext|]. split; [exact Hpiece|]. lia.
Qed.

Lemma tick_wellFormed (s : State.t) :
  wellFormed s -> State.gameEnd s = false ->
  exists s', tick s = Ok s' /\ wellFormed s'.
Proof.
  intros Hwf Hrun. pose proof Hwf as [Hgrid Hplay].
  destruct (Hplay Hrun) as (Hcur & Hnext & Hid).
  pose proof Hcur as (_ & Hx & Hy & Hy0).
  unfold tick.
  destruct (isValidPosition_pieceOk _ _ _ _ Hgrid Hcur Hx Hy)
    as (valid & -> & _); [lia|].
  cbn [bind]. destruct valid; cbn [negb].
  2: { apply handleGameEnd_wellFormed; assumption. }
  assert (Hy' : ((TetrominoObject.y (State.currentTetromino s) + Block.HEIGHT)
                 mod Block.HEIGHT = 0)%Z).
  { rewrite <- Z.add_mod_idemp_l, Hy by discriminate. reflexivity. }
  destruct (isValidPosition_pieceOk _ _ _
              (TetrominoObject.y (State.currentTetromino s) + Block.HEIGHT)
              Hgrid Hcur Hx Hy')
    as (validBelow & -> & Hbelow).
  { change Block.HEIGHT with 20%Z. lia. }
  cbn [bind]. destruct validBelow; cbn [negb].
  - eexists. split; [reflexivity|].
    split; cbn [set_currentTetromino State.grid State.gameEnd
                State.currentTetromino State.nextTetromino].
    + exact Hgrid.
    + intros _. split; [exact (Hbelow eq_refl)|]. split; assumption.
  - unfold handleAddTetromino.
    eapply computeGridAndUpdateState_wellFormed; try eassumption.
    + reflexivity.
    + apply aligned_quotient; [reflexivity | exact Hy].
Qed.

Lemma moveTetrimino_wellFormed (s : State.t) (dx dy : Z) :
  wellFormed s -> State.gameEnd s = false ->
  (dx mod Block.WIDTH = 0)%Z -> (dy mod Block.HEIGHT = 0)%Z -> (0 <= dy)%Z ->
  exists s', moveTetrimino s (Some (Move dx dy)) = Ok s' /\ wellFormed s'.
Proof.
  intros Hwf Hrun Hdx Hdy Hdy0. pose proof Hwf as [Hgrid Hplay].
  destruct (Hplay Hrun) as (Hcur & Hnext & Hid).
  pose proof Hcur as (_ & Hx & Hy & Hy0).
  unfold moveTetrimino, createTetriminoAction, moveAction.
  cbn [bind prop_x prop_y prop_shape StateChange_x StateChange_y or0].
  destruct (isValidPosition_pieceOk _ _
              (TetrominoObject.x (State.currentTetromino s) + dx)
              (TetrominoObject.y (State.currentTetromino s) + dy)
              Hgrid Hcur)
    as (valid & -> & Hvalid).
  { rewrite Z.add_mod, Hx, Hdx by discriminate. reflexivity. }
  { rewrite Z.add_mod, Hy, Hdy by discriminate. reflexivity. }
  { lia. }
  cbn [bind]. destruct valid.
  - eexists. split; [reflexivity|].
    split; cbn [set_currentTetromino State.grid State.gameEnd
                State.currentTetromino State.nextTetromino].
    + exact Hgrid.
    + intros _. split; [exact (Hvalid eq_refl)|]. split; assumption.
  - destruct (_ || _).
    + apply tick_wellFormed; assumption.
    + eexists. split; [reflexivity | exact Hwf].
Qed.

Lemma rotateTetrimino_wellFormed (s : State.t) :
  wellFormed s -> State.gameEnd s = false ->
  exists s', rotateTetrimino s None = Ok s' /\ wellFormed s'.
Proof.
  intros Hwf Hrun. pose proof Hwf as [Hgrid Hplay].
  destruct (Hplay Hrun) as (Hcur & Hnext & Hid).
  pose proof Hcur as (_ & Hx & Hy & Hy0).
  unfold rotateTetrimino, createTetriminoAction, rotateAction.
  destruct (rotateShapeClockwise_pieceOk _ Hcur) as (rotated & -> & Hrotated).
  cbn [bind prop_x prop_y prop_shape].
  set (p := mkProperties (TetrominoObject.x (State.currentTetromino s))
              (TetrominoObject.y (State.currentTetromino s)) rotated).
  pose proof (Hrotated p eq_refl eq_refl eq_refl) as Hturned.
  destruct (isValidPosition_pieceOk _ _
              (TetrominoObject.x (State.currentTetromino s))
              (TetrominoObject.y (State.currentTetromino s))
              Hgrid Hturned Hx Hy)
    as (valid & Hvalid & _); [lia|].
  cbn [with_properties TetrominoObject.shape prop_shape p] in Hvalid.
  rewrite Hvalid. cbn [bind]. destruct valid.
  - eexists. split; [reflexivity|].
    split; cbn [set_currentTetromino State.grid State.gameEnd
                State.currentTetromino State.nextTetromino].
    + exact Hgrid.
    + intros _. split; [exact Hturned|]. split; assumption.
  - cbn [StateChange_x not isNotNullOrUndefined negb orb].
    apply tick_wellFormed; assumption.
Qed.

Lemma dropTetromino_wellFormed (s : State.t) :
  wellFormed s -> State.gameEnd s = false ->
  exists s', dropTetromino s = Ok s' /\ wellFormed s'.
Proof.
  intros Hwf Hrun. pose proof Hwf as [Hgrid Hplay].
  destruct (Hplay Hrun) as (Hcur & _).
  pose proof Hcur as ((R & C & Hrect) & Hx & Hy & Hy0).
  destruct (findDropPosition_aligned _ _ _ _ _ _ Hgrid Hrect Hx Hy Hy0)
    as (k & row & Hdrop & _ & Hrow & _).
  unfold dropTetromino.
  eapply computeGridAndUpdateState_wellFormed; eassumption.
Qed.

Lemma initialState_wellFormed :
  exists s0, initialState = Ok s0 /\ wellFormed s0.
Proof.
  eexists. split; [reflexivity|]. split.
  - split; [reflexivity|]. apply Forall_replicate. reflexivity.
  - intros _.
    destruct (getRandomTetrimono_pieceOk 1 ltac:(lia)) as (p1 & H1 & Hp1 & _).
    destruct (getRandomTetrimono_pieceOk 2 ltac:(lia)) as (p2 & H2 & Hp2 & _).
    vm_compute in H1, H2. injection H1 as <-. injection H2 as <-.
    split; [exact Hp1|]. split; [exact Hp2|]. cbn. lia.
Qed.

Lemma reduceState_keeps_wellFormed (s : State.t) (e : StateChange) :
  wellFormed s ->
  keyEvent e ->
  exists s', reduceState s e = Ok s' /\ wellFormed s'.
Proof.
  intros Hwf He. unfold reduceState.
  destruct (State.gameEnd s) eqn:Hrun.
  - assert (Hrestart :
              exists s',
                (let* current := getRandomTetrimono 1 in
                 let* next := getRandomTetrimono 2 in
                 Ok (State.mk false current next emptyGrid 0 0
                       (State.highScore s) (State.tickRate s))) = Ok s'
                /\ wellFormed s').
    { destruct initialState_wellFormed as (s0 & Hs0 & Hgrid0 & Hplay0).
      unfold initialState in Hs0. bind_inv Hs0. bind_inv Hs0.
      injection Hs0 as <-. cbn [bind].
      eexists. split; [reflexivity|]. split; [exact Hgrid0 | exact Hplay0]. }
    destruct e; try (eexists; split; [reflexivity | exact Hwf]).
    exact Hrestart.
  - destruct He as [->|[->|[->|[->|[->|[->| ->]]]]]].
    + apply tick_wellFormed; assumption.
    + apply tick_wellFormed; assumption.
    + apply rotateTetrimino_wellFormed; assumption.
    + apply dropTetromino_wellFormed; assumption.
    + apply moveTetrimino_wellFormed; try assumption; try reflexivity; lia.
    + apply moveTetrimino_wellFormed; try assumption; try reflexivity; lia.
    + apply moveTetrimino_wellFormed; try assumption; try reflexivity.
      discriminate.
Qed.




(** X17.  From the initial state no sequence of timer ticks and key presses
    makes the reducer throw, and every state on the way is well formed. *)
Theorem run_never_throws (events : list StateChange) :
  Forall keyEvent events ->
  exists s, run events = Ok s /\ wellFormed s.
Proof.
  intros Hev. unfold run.
  destruct initialState_wellFormed as (s0 & -> & Hwf). cbn [bind].
  revert s0 Hwf. induction Hev as [|e events He _ IH]; intros s0 Hwf.
  - exists s0. split; [reflexivity | exact Hwf].
  - cbn [scan].
    destruct (reduceState_keeps_wellFormed s0 e Hwf He) as (s1 & -> & Hwf1).
    cbn [bind]. apply IH. exact Hwf1.
Qed.

Lemma run_never_throws_witness :
  exists s,
    run [Move Block.WIDTH 0; Rotate; Tick; Drop; Space; Move 0 Block.HEIGHT]
    = Ok s
    /\ wellFormed s.
Proof.
  apply run_never_throws.
  repeat constructor; unfold keyEvent; tauto.
Defined.

(** ** Further invariants of play *)

(** X18.  Starting from a state with level in [1, 15] and a non-negative
    score, any sequence of events without Space that the reducer accepts
    ends in a state with level in [1, 15] and a non-negative score. *)
Theorem scan_keeps_level_range (events : list StateChange) (s s' : State.t) :
  scan s events = Ok s' ->
  Forall (fun e => e <> Space) events ->
  level_in_range s ->
  level_in_range s'.
Proof. intros. eapply scan_level; eassumption. Qed.

Lemma scan_keeps_level_range_witness :
  exists s', scan edgeState [Drop; Tick; Rotate] = Ok s' /\ level_in_range s'.
Proof.
  eexists. split; [vm_compute; reflexivity|].
  apply (scan_keeps_level_range [Drop; Tick; Rotate] edgeState).
  - vm_compute. reflexivity.
  - repeat constructor; discriminate.
  - split; cbn; lia.
Defined.

(** X19.  One clockwise rotation turns a shape of R rows of C entries
    (R at least 1) into C rows of R entries whose entry (i, j) is the entry
    (R - 1 - j, i) of the input. *)
Theorem rotateShapeClockwise_entries {T} (R C : nat)
  (shape : list (list (option T))) :
  rectangular (S R) C shape ->
  exists rotated,
    rotateShapeClockwise shape = Ok rotated
    /\ rectangular C (S R) rotated
    /\ forall i j, i < C -> j < S R ->
         entry rotated i j = entry shape (R - j) i.
Proof. intros. eapply rotateShapeClockwise_rectangular; eassumption. Qed.

Lemma rotateShapeClockwise_entries_witness :
  exists rotated,
    rotateShapeClockwise (numbers [[1; 2; 3]; [4; 5; 6]]%Z) = Ok rotated
    /\ rectangular 3 2 rotated
    /\ forall i j, i < 3 -> j < 2 ->
         entry rotated i j = entry (numbers [[1; 2; 3]; [4; 5; 6]]%Z) (1 - j) i.
Proof.
  apply (rotateShapeClockwise_entries 1 3 (numbers [[1; 2; 3]; [4; 5; 6]]%Z)).
  split; [reflexivity | repeat constructor].
Defined.

(** X20.  A hard drop that returns hands the pieces over: the next piece
    becomes current, the new next piece is generated from the old next id
    plus one, the score does not decrease, the level is
    [min(floor(score / 5) + 1, 15)] of the new score, the tick rate is
    [500 - 30 * level], and [gameEnd] and [highScore] are unchanged. *)
Theorem drop_hands_over (s s' : State.t) :
  State.gameEnd s = false ->
  reduceState s Drop = Ok s' ->
  State.gameEnd s' = false
  /\ State.highScore s' = State.highScore s
  /\ State.currentTetromino s' = State.nextTetromino s
  /\ getRandomTetrimono (TetrominoObject.id (State.nextTetromino s) + 1)
     = Ok (State.nextTetromino s')
  /\ (State.score s <= State.score s')%Z
  /\ State.level s' = Z.min (State.score s' / 5 + 1) 15
  /\ State.tickRate s' = (Constants.TICK_RATE_MS - 30 * State.level s')%Z.
Proof.
  intros Hrun Hdrop. unfold reduceState in Hdrop. rewrite Hrun in Hdrop.
  apply computeGridAndUpdateState_frame in Hdrop as (Hend & Hrest).
  split; [congruence | exact Hrest].
Qed.

Lemma drop_hands_over_witness :
  exists s',
    reduceState edgeState Drop = Ok s'
    /\ State.gameEnd s' = false
    /\ State.highScore s' = State.highScore edgeState
    /\ State.currentTetromino s' = State.nextTetromino edgeState
    /\ getRandomTetrimono
         (TetrominoObject.id (State.nextTetromino edgeState) + 1)
       = Ok (State.nextTetromino s')
    /\ (State.score edgeState <= State.score s')%Z
    /\ State.level s' = Z.min (State.score s' / 5 + 1) 15
    /\ State.tickRate s' = (Constants.TICK_RATE_MS - 30 * State.level s')%Z.
Proof.
  eexists. split; [vm_compute; reflexivity|].
  apply (drop_hands_over edgeState).
  - reflexivity.
  - vm_compute. reflexivity.
Defined.
